(** * cpu_ram_stress: a shallow embedding of [src/cpu_ram_stress.cpp]

    The program reserves a large block of memory, fills it, starts two
    busy workers per hardware thread, waits ten seconds and then prints
    the memory counters of the process and the processor utilisation of
    the system.

    Unsigned 64-bit values ([unsigned long long], [ULONGLONG], [size_t])
    are integers of [Z] with the wrap-around written out; [double] is
    IEEE-754 binary64 as specified by [SpecFloat]; loops that the source
    does not bound take a fuel argument. *)

From Stdlib Require Import ZArith Znumtheory Lia Lqa List Bool.
From Stdlib Require Import QArith Qabs Qpower.
From Stdlib Require Import Floats.SpecFloat.
Import ListNotations.

Local Open Scope Z_scope.

(** ** Unsigned 64-bit arithmetic *)

Module U64.

Definition modulus : Z := 2 ^ 64.

Definition wrap (x : Z) : Z := x mod modulus.

Definition in_range (x : Z) : Prop := 0 <= x < modulus.

Definition add (x y : Z) : Z := wrap (x + y).
Definition sub (x y : Z) : Z := wrap (x - y).
Definition mul (x y : Z) : Z := wrap (x * y).

End U64.

(** ** is_prime (lines 15-24)

    [num % i] with [i = 0] is undefined behaviour in the source; the
    model reports it as [DivByZero] rather than giving it a value. A loop
    that has not returned when the fuel is used up is [OutOfFuel]. *)

Inductive outcome (A : Type) : Type :=
| Done (a : A)
| DivByZero
| OutOfFuel.

Arguments Done {A} a.
Arguments DivByZero {A}.
Arguments OutOfFuel {A}.

(** The [for] loop of lines 20-22: guard [i * i <= num] (the product is
    taken in 64 bits), body [if (num % i == 0 || num % (i + 2) == 0)
    return false], increment [i += 6]; [Done true] is the [return true]
    of line 23. *)
Fixpoint is_prime_loop (fuel : nat) (num i : Z) : outcome bool :=
  match fuel with
  | O => OutOfFuel
  | S fuel' =>
      if U64.mul i i <=? num then
        if i =? 0 then DivByZero
        else if num mod i =? 0 then Done false
        else if U64.add i 2 =? 0 then DivByZero
        else if num mod (U64.add i 2) =? 0 then Done false
        else is_prime_loop fuel' num (U64.add i 6)
      else Done true
  end.

Definition is_prime (fuel : nat) (num : Z) : outcome bool :=
  if num <=? 1 then Done false
  else if (num =? 2) || (num =? 3) then Done true
  else if (num mod 2 =? 0) || (num mod 3 =? 0) then Done false
  else is_prime_loop fuel num 5.

(** The divisors the loop tries are the numbers [6k + 5] and [6k + 7]:
    the residues 5 and 1 modulo 6, from 5 on. *)
Definition trial_divisor (n d : Z) : Prop :=
  5 <= d <= Z.sqrt n /\ (d mod 6 = 5 \/ d mod 6 = 1) /\ (d | n).

Definition primes_to_100 : list Z :=
  [2; 3; 5; 7; 11; 13; 17; 19; 23; 29; 31; 37; 41; 43; 47; 53; 59; 61; 67;
   71; 73; 79; 83; 89; 97].

Definition composites_to_100 : list Z :=
  filter (fun n => negb (existsb (Z.eqb n) primes_to_100))
         (map Z.of_nat (seq 4 97)).

(** Largest candidate below [2 ^ 32], and the first candidate at which
    the wrapped square exceeds every prime of 64 bits. *)
Definition last_exact_candidate : Z := 4294967291.
Definition wrapped_exit_candidate : Z := 1852311383259529397.

(** ** IEEE-754 binary64 ([double])

    [SpecFloat] gives the operations on sign, mantissa and exponent, all
    rounded to nearest with ties to even. [of_Z] is the conversion of an
    integer, as in [(double)(idleTimeDelta)] and in [double result = 0];
    the literal [100.0] is [of_Z 100], which is exact. *)

Module Binary64.

Definition prec : Z := 53.
Definition emax : Z := 1024.

Definition double : Type := spec_float.

Definition of_Z (z : Z) : double := binary_normalize prec emax z 0 false.

Definition add (x y : double) : double := SFadd prec emax x y.
Definition sub (x y : double) : double := SFsub prec emax x y.
Definition mul (x y : double) : double := SFmul prec emax x y.
Definition div (x y : double) : double := SFdiv prec emax x y.
Definition sqrt (x : double) : double := SFsqrt prec emax x.

Definition is_nan (x : double) : bool :=
  match x with S754_nan => true | _ => false end.

Definition is_finite (x : double) : bool :=
  match x with S754_zero _ | S754_finite _ _ _ => true | _ => false end.

(** The rational number a finite [double] stands for. *)
Definition to_Q (x : double) : Q :=
  match x with
  | S754_finite s m e =>
      let v := (inject_Z (Zpos m) * Qpower 2 e)%Q in
      if s then Qopp v else v
  | _ => 0%Q
  end.

End Binary64.

Abbreviation double := Binary64.double.

(** The numbers 1.0 and 100.0. *)
Definition one : double := S754_finite false 4503599627370496 (-52).
Definition hundred : double := S754_finite false 7036874417766400 (-46).

(** *** Rounding

    [v] is a rounding of [x]: it is off by at most [2 ^ -53] of its own
    magnitude, half a unit in the last place of a mantissa of 53 bits. *)
Definition rel_close (v x : Q) : Prop :=
  (Qabs (v - x) <= Qpower 2 (-53) * Qabs v)%Q.

Definition signed (s : bool) (x : Q) : Q := if s then Qopp x else x.

(** A mantissa with its round and sticky bits brackets the ratio
    [N / D]: the mantissa is its integer part, and the two bits tell
    whether the rest is zero, below a half, a half, or above a half. *)
Definition brackets (N D : Z) (mrs : shr_record) : Prop :=
  let m := shr_m mrs in
  match shr_r mrs, shr_s mrs with
  | false, false => N = m * D
  | false, true => m * D < N /\ 2 * N < (2 * m + 1) * D
  | true, false => 2 * N = (2 * m + 1) * D
  | true, true => (2 * m + 1) * D < 2 * N /\ N < (m + 1) * D
  end.

(** ** The workers (lines 26-41)

    One step of a worker is one pass of its innermost loop. A step gives
    [Done] with the next state; a step that would leave the function
    would have no next state. *)

Record fp_state : Type := { result : double; i : Z }.

(** [double result = 0; for (long i = 0; ...)] *)
Definition cpu_stress_start : fp_state :=
  {| result := Binary64.of_Z 0; i := 0 |}.

(** [i < 100000000] holds: [result += sqrt(i); ++i]. It fails: the [for]
    loop ends and [while (true)] starts the body again. *)
Definition cpu_stress_step (s : fp_state) : outcome fp_state :=
  if i s <? 100000000 then
    Done {| result := Binary64.add (result s)
                                   (Binary64.sqrt (Binary64.of_Z (i s)));
            i := i s + 1 |}
  else Done cpu_stress_start.

(** [unsigned long long num = 2] *)
Definition cpu_stress2_start : Z := 2.

(** [if (is_prime(num)) {} num++;] *)
Definition cpu_stress2_step (fuel : nat) (num : Z) : outcome Z :=
  match is_prime fuel num with
  | Done _ => Done (U64.add num 1)
  | DivByZero => DivByZero
  | OutOfFuel => OutOfFuel
  end.

Fixpoint iterate {St : Type} (step : St -> outcome St) (k : nat) (s : St)
  : outcome St :=
  match k with
  | O => Done s
  | S k' =>
      match step s with
      | Done s' => iterate step k' s'
      | DivByZero => DivByZero
      | OutOfFuel => OutOfFuel
      end
  end.

(** ** Counters of the operating system *)

(** [FILETIME]: two 32-bit halves of a 64-bit count of 100 ns ticks. *)
Record FILETIME : Type := { dwLowDateTime : Z; dwHighDateTime : Z }.

(** [ULARGE_INTEGER]: [LowPart] and [HighPart] are assigned, [QuadPart]
    is read. *)
Definition QuadPart (t : FILETIME) : Z :=
  Z.lor (Z.shiftl (dwHighDateTime t mod 2 ^ 32) 32) (dwLowDateTime t mod 2 ^ 32).

Definition filetime_of (q : Z) : FILETIME :=
  {| dwLowDateTime := Z.land q (2 ^ 32 - 1); dwHighDateTime := Z.shiftr q 32 |}.

(** What one call of [GetSystemTimes] fills in. *)
Record CpuTimeSnapshot : Type :=
  { idleTime : FILETIME; kernelTime : FILETIME; userTime : FILETIME }.

(** The two fields of [PROCESS_MEMORY_COUNTERS] that the program reads. *)
Record PROCESS_MEMORY_COUNTERS : Type :=
  { PagefileUsage : Z; WorkingSetSize : Z }.

(** ** print_cpu_usage (lines 54-89), the arithmetic *)

Definition systemTime (s : CpuTimeSnapshot) : Z :=
  U64.add (QuadPart (kernelTime s)) (QuadPart (userTime s)).

Definition systemTimeDelta (s1 s2 : CpuTimeSnapshot) : Z :=
  U64.sub (systemTime s2) (systemTime s1).

Definition idleTimeDelta (s1 s2 : CpuTimeSnapshot) : Z :=
  U64.sub (QuadPart (idleTime s2)) (QuadPart (idleTime s1)).

(** [100.0 - (double)(idleTimeDelta) / (double)(systemTimeDelta) * 100.0] *)
Definition cpuUsage_of_deltas (idleDelta systemDelta : Z) : double :=
  Binary64.sub (Binary64.of_Z 100)
    (Binary64.mul
       (Binary64.div (Binary64.of_Z idleDelta) (Binary64.of_Z systemDelta))
       (Binary64.of_Z 100)).

Definition cpuUsage (s1 s2 : CpuTimeSnapshot) : double :=
  cpuUsage_of_deltas (idleTimeDelta s1 s2) (systemTimeDelta s1 s2).

(** ** print_memory_usage (lines 43-52), the arithmetic *)

(** [x / (1024 * 1024)] on a [SIZE_T]. *)
Definition megabytes (bytes : Z) : Z := bytes / (1024 * 1024).

(** ** main (lines 93-137)

    The program acts on the memory block, on the vector of threads and
    on the clock, and it calls the operating system. A run is logged:
    every action is entered with the state it leaves behind.

    The clock counts the milliseconds asked of [Sleep]; the other
    actions take no time on it. [setlocale] changes how the lines are
    written, not which, and is left out.

    [thread(f)] starts its thread or throws [std::system_error]; [main]
    catches nothing, so an exception ends the run in [std::terminate]:
    nothing after the throw is done, no destructor runs, and there is no
    exit code. *)

(** The functions a thread is started with. *)
Inductive thread_fn : Type := cpu_stress | cpu_stress2.

(** Lines written to [cout] and [cerr], by content. *)
Inductive output : Type :=
| MsgReserving            (* line 98 *)
| MsgAllocationFailed     (* line 102, cerr *)
| MsgWaiting              (* line 118 *)
| MsgFilled               (* line 121 *)
| MsgMemoryHeader         (* line 123 *)
| MsgVmSize (mb : Z)      (* line 46 *)
| MsgVmRSS (mb : Z)       (* line 47 *)
| MsgMemoryUnavailable    (* line 50, cerr *)
| MsgCpuHeader            (* line 126 *)
| MsgCpuUsage (percent : double)   (* line 88 *)
| MsgPressEnter.          (* line 129 *)

Inductive event : Type :=
| Out (o : output)
| New (size : Z) (ok : bool)          (* new(nothrow) char[SIZE] *)
| Memset (value size : Z)
| Spawn (f : thread_fn)               (* threads.push_back(thread(f)) *)
| SpawnFails (f : thread_fn)          (* thread(f) throws *)
| Sleep (ms : Z)
| GetProcessMemoryInfo (ok : bool)
| GetSystemTimes
| CinGet
| Delete
| Detach (f : thread_fn).

(** The block by offset; [None] before [new] and after [delete[]]. *)
Record world : Type :=
  { clock : Z;                          (* ms slept so far *)
    big_array : option (Z -> Z);
    threads : list thread_fn }.

Record machine : Type :=
  { now : world;
    log : list (event * world) }.

(** What the operating system answers. [allocate] is [None] when
    [new(nothrow)] returns the null pointer, and gives the bytes found in
    the fresh block otherwise; [thread_starts k] tells whether one more
    thread can be started when [k] threads have been started; the
    counters depend on the time of the call. *)
Record os : Type :=
  { allocate : Z -> option (Z -> Z);
    hardware_concurrency : Z;
    thread_starts : nat -> bool;
    process_memory : Z -> option PROCESS_MEMORY_COUNTERS;
    system_times : Z -> CpuTimeSnapshot }.

(** How a computation ends: it returns a value, or an exception that
    nobody catches has ended the program. *)
Inductive completion (A : Type) : Type :=
| Returned (a : A)
| Terminated.

Arguments Returned {A} a.
Arguments Terminated {A}.

Definition M (A : Type) : Type := machine -> completion A * machine.

Definition ret {A : Type} (a : A) : M A := fun m => (Returned a, m).

Definition bind {A B : Type} (c : M A) (k : A -> M B) : M B :=
  fun m =>
    match c m with
    | (Returned a, m') => k a m'
    | (Terminated, m') => (Terminated, m')
    end.

(** [throw] with no handler up to [main]. *)
Definition terminate {A : Type} : M A := fun m => (Terminated, m).

Declare Scope prog_scope.
Delimit Scope prog_scope with prog.
Notation "x <- c ;; k" := (bind c (fun x => k))
  (at level 61, c at next level, right associativity) : prog_scope.
Notation "c ;; k" := (bind c (fun _ => k))
  (at level 61, right associativity) : prog_scope.

Definition get_world : M world := fun m => (Returned (now m), m).

(** An action: change the state, then enter the event with the new
    state in the log. *)
Definition act (e : event) (f : world -> world) : M unit :=
  fun m =>
    let w := f (now m) in
    (Returned tt, {| now := w; log := log m ++ [(e, w)] |}).

Definition cout (o : output) : M unit := act (Out o) (fun w => w).

(** [memset(p, value, size)] stores [(unsigned char) value] at the
    offsets [0 .. size - 1]. *)
Definition memset (block : Z -> Z) (value size : Z) : Z -> Z :=
  fun off => if (0 <=? off) && (off <? size) then value mod 256 else block off.

Definition set_big_array (b : option (Z -> Z)) (w : world) : world :=
  {| clock := clock w; big_array := b; threads := threads w |}.

(** [memset(big_array, value, size)] on the block the pointer is to. *)
Definition fill_big_array (value size : Z) (w : world) : world :=
  set_big_array (option_map (fun block => memset block value size)
                            (big_array w)) w.

Definition push_thread (f : thread_fn) (w : world) : world :=
  {| clock := clock w; big_array := big_array w; threads := threads w ++ [f] |}.

Definition advance (ms : Z) (w : world) : world :=
  {| clock := clock w + ms; big_array := big_array w; threads := threads w |}.

Section Program.

Variable sys : os.

Local Open Scope prog_scope.

(** [for (unsigned int i = 0; i < n; ++i) body] *)
Fixpoint for_loop (n : nat) (body : M unit) : M unit :=
  match n with
  | O => ret tt
  | S n' => body ;; for_loop n' body
  end.

(** [for (auto& t : threads) body(t)] *)
Fixpoint for_each (l : list thread_fn) (body : thread_fn -> M unit) : M unit :=
  match l with
  | [] => ret tt
  | t :: l' => body t ;; for_each l' body
  end.

(** [threads.push_back(thread(f))]: the thread is started and joins the
    vector, or the constructor of [std::thread] throws. *)
Definition spawn (f : thread_fn) : M unit :=
  w <- get_world ;;
  if thread_starts sys (length (threads w))
  then act (Spawn f) (push_thread f)
  else (act (SpawnFails f) (fun w => w) ;; terminate).

Definition print_memory_usage : M unit :=
  w <- get_world ;;
  match process_memory sys (clock w) with
  | Some pmc =>
      act (GetProcessMemoryInfo true) (fun w => w) ;;
      cout (MsgVmSize (megabytes (PagefileUsage pmc))) ;;
      cout (MsgVmRSS (megabytes (WorkingSetSize pmc)))
  | None =>
      act (GetProcessMemoryInfo false) (fun w => w) ;;
      cout MsgMemoryUnavailable
  end.

Definition print_cpu_usage : M unit :=
  w1 <- get_world ;;
  act GetSystemTimes (fun w => w) ;;
  act (Sleep 1000) (advance 1000) ;;
  w2 <- get_world ;;
  act GetSystemTimes (fun w => w) ;;
  cout (MsgCpuUsage (cpuUsage (system_times sys (clock w1))
                              (system_times sys (clock w2)))).

(** [main] with the size of the block as a parameter; the value
    returned is the exit code. *)
Definition main_with (SIZE : Z) : M Z :=
  cout MsgReserving ;;
  match allocate sys SIZE with
  | None =>
      act (New SIZE false) (fun w => w) ;;
      cout MsgAllocationFailed ;;
      ret 1
  | Some fresh =>
      act (New SIZE true) (set_big_array (Some fresh)) ;;
      act (Memset 1 SIZE) (fill_big_array 1 SIZE) ;;
      let num_threads := Z.to_nat (hardware_concurrency sys) in
      for_loop num_threads (spawn cpu_stress) ;;
      for_loop num_threads (spawn cpu_stress2) ;;
      cout MsgWaiting ;;
      act (Sleep 10000) (advance 10000) ;;
      cout MsgFilled ;;
      cout MsgMemoryHeader ;;
      print_memory_usage ;;
      cout MsgCpuHeader ;;
      print_cpu_usage ;;
      cout MsgPressEnter ;;
      act CinGet (fun w => w) ;;
      act Delete (set_big_array None) ;;
      w <- get_world ;;
      for_each (threads w) (fun t => act (Detach t) (fun w => w)) ;;
      ret 0
  end.

End Program.

Definition GB : Z := 1024 * 1024 * 1024.
Definition SIZE : Z := 22 * GB.

Definition main (sys : os) : M Z := main_with sys SIZE.

Definition boot : machine :=
  {| now := {| clock := 0; big_array := None; threads := [] |}; log := [] |}.

Definition exit_code (sys : os) (size : Z) : completion Z :=
  fst (main_with sys size boot).
Definition final (sys : os) (size : Z) : machine := snd (main_with sys size boot).

(** Every thread that [main] asks for can be started: the [2 n] of
    them, counted from none. *)
Definition every_thread_starts (sys : os) : bool :=
  forallb (thread_starts sys)
          (seq 0 (2 * Z.to_nat (hardware_concurrency sys))).

Definition is_spawn (e : event) : bool :=
  match e with Spawn _ => true | _ => false end.

Definition is_measurement (e : event) : bool :=
  match e with GetProcessMemoryInfo _ | GetSystemTimes => true | _ => false end.

Definition spawned (f : thread_fn) (l : list (event * world)) : nat :=
  length (filter (fun x => match fst x with
                           | Spawn cpu_stress =>
                               match f with cpu_stress => true | _ => false end
                           | Spawn cpu_stress2 =>
                               match f with cpu_stress2 => true | _ => false end
                           | _ => false
                           end) l).

(** Every byte of the block is the fill value. *)
Definition filled (size value : Z) (w : world) : Prop :=
  exists block, big_array w = Some block
                /\ forall off, 0 <= off < size -> block off = value.

(** ** The log of a run, written out *)

(** State after, and entries of, [n] passes of a loop whose body is the
    action [e] with effect [f]. *)
Fixpoint loop_world (f : world -> world) (n : nat) (w : world) : world :=
  match n with
  | O => w
  | S n' => loop_world f n' (f w)
  end.

Fixpoint loop_entries (e : event) (f : world -> world) (n : nat) (w : world)
  : list (event * world) :=
  match n with
  | O => []
  | S n' => (e, f w) :: loop_entries e f n' (f w)
  end.

Definition memory_entries (sys : os) (w : world) : list (event * world) :=
  match process_memory sys (clock w) with
  | Some pmc =>
      [(GetProcessMemoryInfo true, w);
       (Out (MsgVmSize (megabytes (PagefileUsage pmc))), w);
       (Out (MsgVmRSS (megabytes (WorkingSetSize pmc))), w)]
  | None =>
      [(GetProcessMemoryInfo false, w); (Out MsgMemoryUnavailable, w)]
  end.

Section ExpectedLog.

Variable sys : os.
Variable size : Z.
Variable fresh : Z -> Z.

Let n : nat := Z.to_nat (hardware_concurrency sys).

Definition w_boot : world := now boot.
Definition w_reserved : world := set_big_array (Some fresh) w_boot.
Definition w_filled : world := fill_big_array 1 size w_reserved.
Definition w_half : world := loop_world (push_thread cpu_stress) n w_filled.
Definition w_loaded : world := loop_world (push_thread cpu_stress2) n w_half.
Definition w_held : world := advance 10000 w_loaded.
Definition w_sampled : world := advance 1000 w_held.
Definition w_released : world := set_big_array None w_sampled.

(** Entries up to the end of the second spawning loop. *)
Definition load_log : list (event * world) :=
  (Out MsgReserving, w_boot)
    :: (New size true, w_reserved)
    :: (Memset 1 size, w_filled)
    :: loop_entries (Spawn cpu_stress) (push_thread cpu_stress) n w_filled
    ++ loop_entries (Spawn cpu_stress2) (push_thread cpu_stress2) n w_half
    ++ [(Out MsgWaiting, w_loaded)].

(** Entries between the hold and the release of the block. *)
Definition sample_log : list (event * world) :=
  (Out MsgFilled, w_held)
    :: (Out MsgMemoryHeader, w_held)
    :: memory_entries sys w_held
    ++ [(Out MsgCpuHeader, w_held);
        (GetSystemTimes, w_held);
        (Sleep 1000, w_sampled);
        (GetSystemTimes, w_sampled);
        (Out (MsgCpuUsage (cpuUsage (system_times sys (clock w_held))
                                    (system_times sys (clock w_sampled)))),
         w_sampled);
        (Out MsgPressEnter, w_sampled);
        (CinGet, w_sampled)].

Definition release_log : list (event * world) :=
  (Delete, w_released)
    :: map (fun t => (Detach t, w_released)) (threads w_released).

Definition success_log : list (event * world) :=
  load_log ++ (Sleep 10000, w_held) :: sample_log ++ release_log.

Definition failure_log : list (event * world) :=
  [(Out MsgReserving, w_boot); (New size false, w_boot);
   (Out MsgAllocationFailed, w_boot)].

(** The run in which [k] threads are started and one more cannot be:
    the state it stops in. *)
Definition w_stopped (k : nat) : world :=
  if (k <? n)%nat
  then loop_world (push_thread cpu_stress) k w_filled
  else loop_world (push_thread cpu_stress2) (k - n) w_half.

(** What such a run enters in the log after the [memset]: the threads
    it starts, and the one it cannot. *)
Definition stopped_log (k : nat) : list (event * world) :=
  if (k <? n)%nat
  then loop_entries (Spawn cpu_stress) (push_thread cpu_stress) k w_filled
       ++ [(SpawnFails cpu_stress, w_stopped k)]
  else loop_entries (Spawn cpu_stress) (push_thread cpu_stress) n w_filled
       ++ loop_entries (Spawn cpu_stress2) (push_thread cpu_stress2)
                       (k - n) w_half
       ++ [(SpawnFails cpu_stress2, w_stopped k)].

Definition terminated_log (k : nat) : list (event * world) :=
  (Out MsgReserving, w_boot)
    :: (New size true, w_reserved)
    :: (Memset 1 size, w_filled)
    :: stopped_log k.

End ExpectedLog.

(** ** Operating systems to run the program on *)

Definition snapshot_of (idle kernel user : Z) : CpuTimeSnapshot :=
  {| idleTime := filetime_of idle;
     kernelTime := filetime_of kernel;
     userTime := filetime_of user |}.

(** A system whose time counters stand still. *)
Definition os_frozen_clock : os :=
  {| allocate := fun _ => Some (fun _ => 0);
     hardware_concurrency := 1;
     thread_starts := fun _ => true;
     process_memory := fun _ => None;
     system_times := fun _ => snapshot_of 5 7 9 |}.

(** No block of any size can be had. *)
Definition os_out_of_memory : os :=
  {| allocate := fun _ => None;
     hardware_concurrency := 8;
     thread_starts := fun _ => true;
     process_memory := fun _ => None;
     system_times := fun _ => snapshot_of 0 0 0 |}.

(** Two hardware threads, a zeroed block of any size, every thread
    started, 6 MB committed, and a tenth of the processor time idle: per
    millisecond 20000 ticks of kernel and user time, 2000 of them
    idle. *)
Definition os_two_cores : os :=
  {| allocate := fun _ => Some (fun _ => 0);
     hardware_concurrency := 2;
     thread_starts := fun _ => true;
     process_memory := fun _ =>
       Some {| PagefileUsage := 2 * 1024 * 1024 * 3;
               WorkingSetSize := 5 * 1024 * 1024 + 17 |};
     system_times := fun t => snapshot_of (t * 2000) (t * 5000) (t * 15000) |}.

(** The same, but only one thread can be started. *)
Definition os_one_thread : os :=
  {| allocate := fun _ => Some (fun _ => 0);
     hardware_concurrency := 2;
     thread_starts := fun k => (k <? 1)%nat;
     process_memory := process_memory os_two_cores;
     system_times := system_times os_two_cores |}.

(** ** What a log tells *)




(** [delete[]] and [detach] give up what [new] and [thread(f)] took. *)
Definition is_release (e : event) : bool :=
  match e with Delete | Detach _ => true | _ => false end.


(** ** One more operating system *)


(** ** A bound on a double

    [x] is [+0.0], or a positive double with a mantissa of 53 bits that
    is at least 1 and at most the integer [B]. *)
Definition bounded (x : double) (B : Z) : Prop :=
  x = S754_zero false
  \/ exists m e,
      x = S754_finite false m e
      /\ 2 ^ 52 <= Zpos m < 2 ^ 53
      /\ -52 <= e <= 0
      /\ Zpos m <= B * 2 ^ (- e).

(* ------------------------------------------------------------------ *)
(** * Theorems *)

(** ** Unsigned arithmetic *)

Lemma wrap_small x : U64.in_range x -> U64.wrap x = x.
Proof. unfold U64.in_range, U64.wrap. intros H. now apply Z.mod_small. Qed.

Lemma wrap_in_range x : U64.in_range (U64.wrap x).
Proof.
  unfold U64.in_range, U64.wrap. apply Z.mod_pos_bound. reflexivity.
Qed.

Lemma modulus_value : U64.modulus = 18446744073709551616.
Proof. reflexivity. Qed.

(** ** Fuel *)

Lemma is_prime_loop_fuel_mono fuel fuel' num i b :
  is_prime_loop fuel num i = Done b ->
  (fuel <= fuel')%nat ->
  is_prime_loop fuel' num i = Done b.
Proof.
  revert fuel' i.
  induction fuel as [|fuel IH]; intros fuel' i H Hle; [discriminate|].
  destruct fuel' as [|fuel']; [lia|].
  simpl in *.
  destruct (U64.mul i i <=? num); [|exact H].
  destruct (i =? 0); [discriminate|].
  destruct (num mod i =? 0); [exact H|].
  destruct (U64.add i 2 =? 0); [discriminate|].
  destruct (num mod U64.add i 2 =? 0); [exact H|].
  apply IH; [exact H|lia].
Qed.

Lemma is_prime_fuel_mono fuel fuel' num b :
  is_prime fuel num = Done b ->
  (fuel <= fuel')%nat ->
  is_prime fuel' num = Done b.
Proof.
  unfold is_prime. intros H Hle.
  destruct (num <=? 1); [exact H|].
  destruct ((num =? 2) || (num =? 3)); [exact H|].
  destruct ((num mod 2 =? 0) || (num mod 3 =? 0)); [exact H|].
  eapply is_prime_loop_fuel_mono; eauto.
Qed.

(** ** The trial-division loop *)

Lemma mod_eqb_zero_divide n d :
  d <> 0 -> (n mod d =? 0) = true <-> (d | n).
Proof.
  intros Hd. rewrite Z.eqb_eq. now apply Z.mod_divide.
Qed.

Lemma mod_eqb_nonzero_not_divide n d :
  d <> 0 -> (n mod d =? 0) = false <-> ~ (d | n).
Proof.
  intros Hd. rewrite Z.eqb_neq. now rewrite Z.mod_divide.
Qed.

Section Loop.

Variable n : Z.
Hypothesis n_range : 3 < n < U64.modulus.
Hypothesis n_odd : n mod 2 <> 0.
Hypothesis n_not3 : n mod 3 <> 0.

Lemma no_even_divisor d : d mod 2 = 0 -> ~ (d | n).
Proof.
  intros Hd Hdiv. apply n_odd.
  apply Z.mod_divide; [lia|].
  apply Z.divide_trans with d; [|exact Hdiv].
  apply Z.mod_divide; [lia|exact Hd].
Qed.

Lemma no_triple_divisor d : d mod 3 = 0 -> ~ (d | n).
Proof.
  intros Hd Hdiv. apply n_not3.
  apply Z.mod_divide; [lia|].
  apply Z.divide_trans with d; [|exact Hdiv].
  apply Z.mod_divide; [lia|exact Hd].
Qed.

(** If the guard fails at a candidate [B] and no candidate before it
    divides [n], the loop returns [true], at [B] or earlier. *)
Lemma loop_true_upto B :
  B mod 6 = 5 ->
  B + 2 < U64.modulus ->
  n < U64.mul B B ->
  (forall j, 5 <= j <= B -> j mod 6 = 5 -> U64.mul j j <= n ->
             ~ (j | n) /\ ~ (j + 2 | n)) ->
  forall (k : nat) (i : Z),
    i = B - 6 * Z.of_nat k -> 5 <= i ->
    is_prime_loop (S k) n i = Done true.
Proof.
  intros HB HBr Hexit Hnodiv.
  induction k as [|k IH]; intros i Hi Hi5.
  - replace i with B by lia. simpl.
    destruct (Z.leb_spec (U64.mul B B) n); [lia|reflexivity].
  - cbn [is_prime_loop].
    destruct (Z.leb_spec (U64.mul i i) n) as [Hg|Hg]; [|reflexivity].
    assert (Hmod : i mod 6 = 5).
    { subst i. replace (B - 6 * Z.of_nat (S k)) with (B + (- Z.of_nat (S k)) * 6) by lia.
      now rewrite Z.mod_add by lia. }
    destruct (Hnodiv i ltac:(lia) Hmod Hg) as [Hd1 Hd2].
    assert (Hw2 : U64.add i 2 = i + 2).
    { unfold U64.add. apply wrap_small. unfold U64.in_range. lia. }
    assert (Hw6 : U64.add i 6 = i + 6).
    { unfold U64.add. apply wrap_small. unfold U64.in_range. lia. }
    rewrite Hw2, Hw6.
    destruct (Z.eqb_spec i 0); [lia|].
    apply mod_eqb_nonzero_not_divide in Hd1; [|lia]. rewrite Hd1.
    destruct (Z.eqb_spec (i + 2) 0); [lia|].
    apply mod_eqb_nonzero_not_divide in Hd2; [|lia]. rewrite Hd2.
    apply IH; lia.
Qed.

(** If [n] has a divisor [p] with [p * p <= n], the loop returns
    [false] before its candidate passes [p]. *)
Lemma loop_false_upto p :
  1 < p -> p * p <= n -> (p | n) ->
  forall (k : nat) (i : Z),
    p - i < Z.of_nat k ->
    5 <= i <= p -> i mod 6 = 5 ->
    (forall d, 1 < d < i -> ~ (d | n)) ->
    is_prime_loop k n i = Done false.
Proof.
  intros Hp1 Hpp Hpn.
  induction k as [|k IH]; intros i Hk Hi Hmod Hinv; [lia|].
  cbn [is_prime_loop].
  assert (Hsq : i * i <= n) by nia.
  assert (Hm : U64.mul i i = i * i).
  { unfold U64.mul. apply wrap_small. unfold U64.in_range. nia. }
  assert (Hi32 : i < 2 ^ 32).
  { destruct (Z.lt_ge_cases i (2 ^ 32)) as [H|H]; [exact H|].
    assert (2 ^ 32 * 2 ^ 32 <= i * i) by nia.
    change (2 ^ 32 * 2 ^ 32) with U64.modulus in *. lia. }
  assert (Hw2 : U64.add i 2 = i + 2).
  { unfold U64.add. apply wrap_small. unfold U64.in_range.
    change U64.modulus with (2 ^ 64). lia. }
  assert (Hw6 : U64.add i 6 = i + 6).
  { unfold U64.add. apply wrap_small. unfold U64.in_range.
    change U64.modulus with (2 ^ 64). lia. }
  rewrite Hm, Hw2, Hw6.
  destruct (Z.leb_spec (i * i) n); [|lia].
  destruct (Z.eqb_spec i 0); [lia|].
  destruct (n mod i =? 0) eqn:E1; [reflexivity|].
  destruct (Z.eqb_spec (i + 2) 0); [lia|].
  destruct (n mod (i + 2) =? 0) eqn:E2; [reflexivity|].
  apply mod_eqb_nonzero_not_divide in E1; [|lia].
  apply mod_eqb_nonzero_not_divide in E2; [|lia].
  assert (Hnext : forall d, 1 < d < i + 6 -> ~ (d | n)).
  { intros d Hd.
    destruct (Z.lt_ge_cases d i) as [Hlt|Hge]; [apply Hinv; lia|].
    assert (Hcases : d = i \/ d = i + 1 \/ d = i + 2 \/ d = i + 3
                     \/ d = i + 4 \/ d = i + 5) by lia.
    destruct Hcases as [->|[->|[->|[->|[->| ->]]]]];
      [ exact E1
      | apply no_even_divisor
      | exact E2
      | apply no_even_divisor
      | apply no_triple_divisor
      | apply no_even_divisor ];
      Z.div_mod_to_equations; lia. }
  assert (Hle : i + 6 <= p).
  { destruct (Z.lt_ge_cases p (i + 6)) as [Hlt|Hge]; [|lia].
    exfalso. apply (Hnext p); [lia|exact Hpn]. }
  apply IH; [lia|lia| |exact Hnext].
  replace (i + 6) with (i + 1 * 6) by lia. now rewrite Z.mod_add by lia.
Qed.

(** Each pass either returns or moves to the next candidate, and the
    candidates cannot pass [n]: the loop needs at most [n / 6 + 1]
    passes, whatever its guard computes. *)
Lemma loop_returns_within :
  forall (k : nat) (i : Z),
    n - i < 6 * Z.of_nat k ->
    5 <= i -> i mod 6 = 5 ->
    i <= n -> (n mod 6 = 1 -> i + 2 <= n) ->
    exists b, is_prime_loop k n i = Done b.
Proof.
  induction k as [|k IH]; intros i Hk Hi5 Hmod Hin Hin1; [lia|].
  cbn [is_prime_loop].
  destruct (U64.mul i i <=? n); [|now exists true].
  pose proof n_range as Hr. rewrite modulus_value in Hr.
  assert (Hw2 : U64.add i 2 = i + 2).
  { unfold U64.add. apply wrap_small. unfold U64.in_range.
    rewrite modulus_value. clear - Hr Hmod Hin Hi5.
    Z.div_mod_to_equations. lia. }
  rewrite Hw2.
  destruct (Z.eqb_spec i 0); [lia|].
  destruct (Z.eqb_spec (n mod i) 0) as [E1|E1]; [now exists false|].
  destruct (Z.eqb_spec (i + 2) 0); [lia|].
  destruct (Z.eqb_spec (n mod (i + 2)) 0) as [E2|E2]; [now exists false|].
  assert (Hne1 : i <> n).
  { intros ->. apply E1. apply Z.mod_same. lia. }
  assert (Hne2 : i + 2 <> n).
  { intros <-. apply E2. apply Z.mod_same. lia. }
  assert (Hn6 : n mod 6 = 1 \/ n mod 6 = 5).
  { clear - n_odd n_not3. Z.div_mod_to_equations. lia. }
  assert (Hstep : i + 6 <= n /\ (n mod 6 = 1 -> i + 8 <= n)).
  { clear - Hn6 Hmod Hin Hin1 Hne1 Hne2. Z.div_mod_to_equations. lia. }
  assert (Hw6 : U64.add i 6 = i + 6).
  { unfold U64.add. apply wrap_small. unfold U64.in_range.
    rewrite modulus_value. lia. }
  rewrite Hw6.
  apply IH; try lia.
  replace (i + 6) with (i + 1 * 6) by lia. now rewrite Z.mod_add by lia.
Qed.

End Loop.

(** ** is_prime decides primality *)

Lemma prime_no_proper_divisor n d : Z.prime n -> 1 < d < n -> ~ (d | n).
Proof. intros [_ H]. exact (H d). Qed.

Lemma Z_prime_dec n : {Z.prime n} + {~ Z.prime n}.
Proof.
  destruct (prime_dec n) as [H|H]; [left|right]; now rewrite prime_alt.
Qed.

(** A number that is not prime has a divisor at most its square root. *)
Lemma small_divisor n :
  1 < n -> ~ Z.prime n -> exists p, 1 < p /\ p * p <= n /\ (p | n).
Proof.
  intros Hn Hnp. rewrite prime_alt in Hnp.
  destruct (not_prime_divide n Hn Hnp) as (d & Hd & q & Hq).
  assert (Hq1 : 1 < q) by nia.
  destruct (Z.le_gt_cases d q) as [Hle|Hgt].
  - exists d. repeat split; try lia; try nia. now exists q.
  - exists q. repeat split; try lia; try nia. exists d. lia.
Qed.

Lemma candidate_squares :
  U64.mul last_exact_candidate last_exact_candidate = 18446744030759878681
  /\ U64.mul wrapped_exit_candidate wrapped_exit_candidate = U64.modulus - 7.
Proof. split; reflexivity. Qed.

(** No prime lies in the last seven values of 64 bits. *)
Lemma prime_below_wrapped_exit n :
  n < U64.modulus -> Z.prime n -> n < U64.modulus - 7.
Proof.
  rewrite modulus_value. intros Hn Hp.
  destruct (Z.lt_ge_cases n (18446744073709551616 - 7)) as [H|H]; [exact H|].
  exfalso.
  assert (Hdiv : forall d, 1 < d < 14 -> ~ (d | n)).
  { intros d Hd. apply prime_no_proper_divisor; [exact Hp|lia]. }
  assert (Hc : n = 18446744073709551609 \/ n = 18446744073709551610
               \/ n = 18446744073709551611 \/ n = 18446744073709551612
               \/ n = 18446744073709551613 \/ n = 18446744073709551614
               \/ n = 18446744073709551615) by lia.
  destruct Hc as [->|[->|[->|[->|[->|[->| ->]]]]]].
  - apply (Hdiv 3); [lia|]. now exists 6148914691236517203.
  - apply (Hdiv 2); [lia|]. now exists 9223372036854775805.
  - apply (Hdiv 11); [lia|]. now exists 1676976733973595601.
  - apply (Hdiv 2); [lia|]. now exists 9223372036854775806.
  - apply (Hdiv 13); [lia|]. now exists 1418980313362273201.
  - apply (Hdiv 2); [lia|]. now exists 9223372036854775807.
  - apply (Hdiv 3); [lia|]. now exists 6148914691236517205.
Qed.

Lemma is_prime_loop_of_prime n :
  3 < n < U64.modulus -> Z.prime n ->
  exists fuel, is_prime_loop fuel n 5 = Done true.
Proof.
  intros Hn Hp.
  assert (Hodd : n mod 2 <> 0).
  { intros H. apply (prime_no_proper_divisor n 2 Hp); [lia|].
    apply Z.mod_divide; [lia|exact H]. }
  assert (H3 : n mod 3 <> 0).
  { intros H. apply (prime_no_proper_divisor n 3 Hp); [lia|].
    apply Z.mod_divide; [lia|exact H]. }
  destruct candidate_squares as [Hsq1 Hsq2].
  destruct (Z.lt_ge_cases n 18446744030759878681) as [Hlow|Hhigh].
  - (* the guard fails before any candidate reaches [2 ^ 32] *)
    set (k := Z.to_nat 715827881).
    assert (Hk : Z.of_nat k = 715827881) by (subst k; apply Z2Nat.id; lia).
    clearbody k.
    exists (S k).
    apply (loop_true_upto n last_exact_candidate); try reflexivity.
    + rewrite Hsq1. exact Hlow.
    + intros j Hj Hjm Hg.
      unfold last_exact_candidate in Hj.
      assert (Hjj : U64.mul j j = j * j).
      { unfold U64.mul. apply wrap_small. unfold U64.in_range.
        rewrite modulus_value. nia. }
      rewrite Hjj in Hg.
      split; apply prime_no_proper_divisor; try exact Hp; nia.
    + unfold last_exact_candidate. lia.
  - (* candidates pass [2 ^ 32]; the wrapped guard fails later *)
    pose proof (prime_below_wrapped_exit n ltac:(lia) Hp) as Hlt.
    set (k := Z.to_nat 308718563876588232).
    assert (Hk : Z.of_nat k = 308718563876588232)
      by (subst k; apply Z2Nat.id; lia).
    clearbody k.
    exists (S k).
    apply (loop_true_upto n wrapped_exit_candidate); try reflexivity.
    + rewrite Hsq2. exact Hlt.
    + intros j Hj Hjm Hg.
      unfold wrapped_exit_candidate in Hj.
      split; apply prime_no_proper_divisor; try exact Hp; lia.
    + unfold wrapped_exit_candidate. lia.
Qed.

Lemma is_prime_loop_of_composite n :
  3 < n < U64.modulus -> n mod 2 <> 0 -> n mod 3 <> 0 -> ~ Z.prime n ->
  exists fuel, is_prime_loop fuel n 5 = Done false.
Proof.
  intros Hn Hodd H3 Hnp.
  destruct (small_divisor n ltac:(lia) Hnp) as (p & Hp1 & Hpp & Hpn).
  assert (Hsmall : forall d, 1 < d < 5 -> ~ (d | n)).
  { intros d Hd.
    assert (Hc : d = 2 \/ d = 3 \/ d = 4) by lia.
    destruct Hc as [->|[->| ->]];
      [ apply (no_even_divisor n Hodd)
      | apply (no_triple_divisor n H3)
      | apply (no_even_divisor n Hodd) ]; reflexivity. }
  assert (Hp5 : 5 <= p).
  { destruct (Z.lt_ge_cases p 5) as [Hlt|Hge]; [|exact Hge].
    exfalso. apply (Hsmall p); [lia|exact Hpn]. }
  exists (S (Z.to_nat p)).
  apply (loop_false_upto n Hn Hodd H3 p Hp1 Hpp Hpn); try lia; try reflexivity.
  exact Hsmall.
Qed.

(** The trial divisors of the specification characterise primality. *)
Lemma prime_iff_no_trial_divisor n :
  3 < n -> n mod 2 <> 0 -> n mod 3 <> 0 ->
  Z.prime n <-> (forall d, ~ trial_divisor n d).
Proof.
  intros Hn Hodd H3. split.
  - intros Hp d ((Hd5 & Hds) & _ & Hdiv).
    apply Z.sqrt_le_square in Hds; try lia.
    apply (prime_no_proper_divisor n d Hp); [nia|exact Hdiv].
  - intros Hnone.
    destruct (Z_prime_dec n) as [Hp|Hnp]; [exact Hp|exfalso].
    destruct (small_divisor n ltac:(lia) Hnp) as (p & Hp1 & Hpp & Hpn).
    assert (Hp2 : p mod 2 <> 0).
    { intros H. now apply (no_even_divisor n Hodd p). }
    assert (Hp3 : p mod 3 <> 0).
    { intros H. now apply (no_triple_divisor n H3 p). }
    apply (Hnone p). repeat split.
    + clear - Hp1 Hp2 Hp3. Z.div_mod_to_equations. lia.
    + apply Z.sqrt_le_square; lia.
    + clear - Hp2 Hp3. Z.div_mod_to_equations. lia.
    + exact Hpn.
Qed.

Lemma is_prime_returns n :
  U64.in_range n ->
  exists fuel, is_prime fuel n = Done (if Z_prime_dec n then true else false).
Proof.
  intros [Hn0 Hn1]. unfold is_prime.
  destruct (Z.leb_spec n 1) as [Hle|Hgt].
  { exists O. destruct (Z_prime_dec n) as [[H _]|_]; [lia|reflexivity]. }
  destruct (Z.eqb_spec n 2) as [->|Hn2].
  { exists O. destruct (Z_prime_dec 2) as [_|H]; [reflexivity|].
    destruct H. apply Z.prime_2. }
  destruct (Z.eqb_spec n 3) as [->|Hn3].
  { exists O. destruct (Z_prime_dec 3) as [_|H]; [reflexivity|].
    destruct H. apply Z.prime_3. }
  cbn [orb].
  destruct (Z.eqb_spec (n mod 2) 0) as [E2|E2].
  { exists O. destruct (Z_prime_dec n) as [Hp|_]; [exfalso|reflexivity].
    apply (prime_no_proper_divisor n 2 Hp); [lia|].
    apply Z.mod_divide; [lia|exact E2]. }
  destruct (Z.eqb_spec (n mod 3) 0) as [E3|E3].
  { exists O. destruct (Z_prime_dec n) as [Hp|_]; [exfalso|reflexivity].
    apply (prime_no_proper_divisor n 3 Hp); [lia|].
    apply Z.mod_divide; [lia|exact E3]. }
  cbn [orb].
  destruct (Z_prime_dec n) as [Hp|Hnp].
  - apply is_prime_loop_of_prime; [lia|exact Hp].
  - apply is_prime_loop_of_composite; try assumption. lia.
Qed.

(** C1. For every unsigned 64-bit [n], [is_prime] returns: [false] for
    [n <= 1]; [true] for [n = 2] and [n = 3]; [false] when 2 or 3 divides
    [n]; otherwise [true] exactly when no number of residue 1 or 5 modulo
    6 between 5 and the integer square root of [n] divides [n]. The value
    returned is [true] if and only if [n] is prime. With fuel for two
    passes it returns [true] on every prime up to 97 and [false] on every
    composite up to 100, on 0 and on 1. *)
Theorem is_prime_correct :
  (forall n, U64.in_range n ->
     exists fuel b,
       (forall fuel', (fuel <= fuel')%nat -> is_prime fuel' n = Done b)
       /\ (b = true <-> Z.prime n)
       /\ (n <= 1 -> b = false)
       /\ (n = 2 \/ n = 3 -> b = true)
       /\ (3 < n -> n mod 2 = 0 \/ n mod 3 = 0 -> b = false)
       /\ (3 < n -> n mod 2 <> 0 -> n mod 3 <> 0 ->
           (b = true <-> forall d, ~ trial_divisor n d)))
  /\ (forall p, In p primes_to_100 -> is_prime 2 p = Done true)
  /\ (forall c, In c composites_to_100 -> is_prime 2 c = Done false)
  /\ is_prime 0 0 = Done false
  /\ is_prime 0 1 = Done false.
Proof.
  split; [|split; [|split; [|split; reflexivity]]].
  - intros n Hn.
    destruct (is_prime_returns n Hn) as [fuel Hfuel].
    exists fuel, (if Z_prime_dec n then true else false).
    assert (Hiff : (if Z_prime_dec n then true else false) = true <-> Z.prime n).
    { destruct (Z_prime_dec n); split; intros; try assumption;
        try reflexivity; try discriminate; contradiction. }
    split; [|split; [|split; [|split; [|split]]]].
    + intros fuel' Hle. eapply is_prime_fuel_mono; eauto.
    + exact Hiff.
    + intros Hle. destruct (Z_prime_dec n) as [[H _]|_]; [lia|reflexivity].
    + intros [-> | ->]; apply Hiff; [apply Z.prime_2|apply Z.prime_3].
    + intros H3 Hdiv.
      destruct (Z_prime_dec n) as [Hp|_]; [exfalso|reflexivity].
      destruct Hdiv as [E|E].
      * apply (prime_no_proper_divisor n 2 Hp); [lia|].
        apply Z.mod_divide; [lia|exact E].
      * apply (prime_no_proper_divisor n 3 Hp); [lia|].
        apply Z.mod_divide; [lia|exact E].
    + intros H3 Hodd Hn3. rewrite Hiff.
      now apply prime_iff_no_trial_divisor.
  - apply Forall_forall. unfold primes_to_100.
    repeat (constructor; [reflexivity|]). constructor.
  - apply Forall_forall.
    assert (E : composites_to_100 =
                ltac:(let l := eval vm_compute in composites_to_100 in exact l))
      by reflexivity.
    rewrite E.
    repeat (constructor; [reflexivity|]). constructor.
Qed.

Lemma is_prime_correct_witness :
  exists fuel b,
    (forall fuel', (fuel <= fuel')%nat -> is_prime fuel' 97 = Done b)
    /\ (b = true <-> Z.prime 97).
Proof.
  destruct is_prime_correct as [H _].
  destruct (H 97) as (fuel & b & H1 & H2 & _).
  - unfold U64.in_range. rewrite modulus_value. lia.
  - exists fuel, b. split; assumption.
Defined.

(** C10. The trial-division loop returns for every unsigned 64-bit [n],
    within [n / 6 + 1] passes, although its guard multiplies in 64 bits:
    at the candidate [2 ^ 32 + 1] the wrapped square is [2 ^ 33 + 1], so
    the guard holds for [n = 2 ^ 64 - 59] and the loop goes on where the
    exact comparison with the square would have stopped it. *)
Theorem is_prime_terminates :
  (forall n, U64.in_range n ->
     exists b, is_prime (S (Z.to_nat (n / 6))) n = Done b)
  /\ (let n := 18446744073709551557 in
      let i := 4294967297 in
      U64.in_range n /\ U64.in_range i
      /\ U64.mul i i = 8589934593
      /\ (U64.mul i i <=? n) = true
      /\ (i * i <=? n) = false
      /\ is_prime_loop 1 n i = OutOfFuel).
Proof.
  split.
  - intros n [Hn0 Hn1]. unfold is_prime.
    destruct (Z.leb_spec n 1); [now exists false|].
    destruct ((n =? 2) || (n =? 3)) eqn:E23; [now exists true|].
    destruct ((n mod 2 =? 0) || (n mod 3 =? 0)) eqn:Ediv; [now exists false|].
    apply orb_false_elim in E23. destruct E23 as [E2 E3].
    apply orb_false_elim in Ediv. destruct Ediv as [Em2 Em3].
    apply Z.eqb_neq in E2, E3, Em2, Em3.
    assert (Hn6 : n mod 6 = 1 \/ n mod 6 = 5).
    { clear - Em2 Em3. Z.div_mod_to_equations. lia. }
    apply loop_returns_within; try assumption; try lia; try reflexivity.
    + rewrite Nat2Z.inj_succ, Z2Nat.id by (apply Z.div_pos; lia).
      clear - H. Z.div_mod_to_equations. lia.
    + clear - Hn6 H E2 E3. Z.div_mod_to_equations. lia.
    + intros Hm. clear - Hm H E2 E3. Z.div_mod_to_equations. lia.
  - cbv zeta. repeat split; try reflexivity; try discriminate.
Qed.

Lemma is_prime_terminates_witness :
  exists b, is_prime (S (Z.to_nat (91 / 6))) 91 = Done b.
Proof.
  destruct is_prime_terminates as [H _].
  apply (H 91). unfold U64.in_range. rewrite modulus_value. lia.
Defined.

(** ** Runs of main *)

Lemma loop_world_push f n w :
  loop_world (push_thread f) n w
  = {| clock := clock w; big_array := big_array w;
       threads := threads w ++ repeat f n |}.
Proof.
  revert w. induction n as [|n IH]; intros w.
  - simpl. rewrite app_nil_r. now destruct w.
  - cbn [loop_world repeat]. rewrite IH. cbn [push_thread clock big_array threads].
    now rewrite <- app_assoc.
Qed.

Lemma bind_act {B : Type} e f (k : unit -> M B) m :
  bind (act e f) k m
  = k tt {| now := f (now m); log := log m ++ [(e, f (now m))] |}.
Proof. reflexivity. Qed.

Lemma bind_get_world {B : Type} (k : world -> M B) m :
  bind get_world k m = k (now m) m.
Proof. reflexivity. Qed.

Lemma bind_assoc {A B C : Type} (c : M A) (k1 : A -> M B) (k2 : B -> M C) m :
  bind (bind c k1) k2 m = bind c (fun a => bind (k1 a) k2) m.
Proof. unfold bind. now destruct (c m) as [[a|] m']. Qed.

Ltac run_step :=
  first [rewrite bind_act | rewrite bind_get_world | rewrite bind_assoc];
  cbv beta; cbn [now log].

(** A loop of [n] thread starts, when each of them succeeds. *)
Lemma for_loop_spawn sys f n m :
  forallb (thread_starts sys) (seq (length (threads (now m))) n) = true ->
  for_loop n (spawn sys f) m
  = (Returned tt,
     {| now := loop_world (push_thread f) n (now m);
        log := log m ++ loop_entries (Spawn f) (push_thread f) n (now m) |}).
Proof.
  revert m. induction n as [|n IH]; intros m H.
  - simpl. unfold ret. rewrite app_nil_r. now destruct m.
  - cbn [seq forallb] in H. apply andb_prop in H. destruct H as [H0 H].
    cbn [for_loop loop_world loop_entries]. unfold bind at 1.
    unfold spawn at 1. unfold bind at 1, get_world. rewrite H0.
    unfold act at 1. rewrite IH.
    + cbn [now log]. now rewrite <- app_assoc.
    + cbn [now push_thread threads]. rewrite length_app, Nat.add_1_r.
      exact H.
Qed.

(** The same loop when [j] threads start and the next one does not:
    the loop is left by the exception. *)
Lemma for_loop_spawn_stops sys f j :
  forall n m,
    (j < n)%nat ->
    forallb (thread_starts sys) (seq (length (threads (now m))) j) = true ->
    thread_starts sys (length (threads (now m)) + j) = false ->
    for_loop n (spawn sys f) m
    = (Terminated,
       {| now := loop_world (push_thread f) j (now m);
          log := log m
                 ++ loop_entries (Spawn f) (push_thread f) j (now m)
                 ++ [(SpawnFails f, loop_world (push_thread f) j (now m))] |}).
Proof.
  induction j as [|j IH]; intros n m Hj Hok Hfail.
  - destruct n as [|n]; [lia|].
    rewrite Nat.add_0_r in Hfail.
    cbn [for_loop loop_world loop_entries app]. unfold bind at 1.
    unfold spawn at 1. unfold bind at 1, get_world. rewrite Hfail.
    reflexivity.
  - destruct n as [|n]; [lia|].
    cbn [seq forallb] in Hok. apply andb_prop in Hok.
    destruct Hok as [H0 Hok].
    cbn [for_loop loop_world loop_entries]. unfold bind at 1.
    unfold spawn at 1. unfold bind at 1, get_world. rewrite H0.
    unfold act at 1. rewrite (IH n).
    + cbn [now log]. rewrite <- app_assoc. reflexivity.
    + lia.
    + cbn [now push_thread threads]. rewrite length_app, Nat.add_1_r.
      exact Hok.
    + cbn [now push_thread threads]. rewrite length_app, Nat.add_1_r.
      rewrite <- Hfail. f_equal. lia.
Qed.

Lemma for_each_detach l m :
  for_each l (fun t => act (Detach t) (fun w => w)) m
  = (Returned tt,
     {| now := now m;
        log := log m ++ map (fun t => (Detach t, now m)) l |}).
Proof.
  revert m. induction l as [|t l IH]; intros m.
  - simpl. unfold ret. rewrite app_nil_r. now destruct m.
  - cbn [for_each map]. unfold bind at 1. unfold act at 1.
    rewrite IH. cbn [now log]. now rewrite <- app_assoc.
Qed.

(** The first thread that cannot be started. *)
Lemma first_failure (p : nat -> bool) N :
  forallb p (seq 0 N) = false ->
  exists k, (k < N)%nat /\ forallb p (seq 0 k) = true /\ p k = false.
Proof.
  induction N as [|N IH]; [discriminate|].
  rewrite seq_S, forallb_app. cbn [forallb Nat.add].
  destruct (forallb p (seq 0 N)) eqn:E.
  - rewrite andb_true_r. cbn [andb]. intros HN.
    exists N. repeat split; [lia|exact E|exact HN].
  - intros _. destruct (IH eq_refl) as (k & Hk & H1 & H2).
    exists k. repeat split; [lia|exact H1|exact H2].
Qed.

Lemma every_thread_starts_halves sys :
  every_thread_starts sys = true ->
  forallb (thread_starts sys) (seq 0 (Z.to_nat (hardware_concurrency sys)))
  = true
  /\ forallb (thread_starts sys)
             (seq (Z.to_nat (hardware_concurrency sys))
                  (Z.to_nat (hardware_concurrency sys))) = true.
Proof.
  unfold every_thread_starts.
  replace (2 * Z.to_nat (hardware_concurrency sys))%nat
    with (Z.to_nat (hardware_concurrency sys)
          + Z.to_nat (hardware_concurrency sys))%nat by lia.
  rewrite seq_app, forallb_app. intros H. apply andb_prop in H.
  exact H.
Qed.

Lemma every_thread_starts_upto sys k :
  every_thread_starts sys = true ->
  (k < 2 * Z.to_nat (hardware_concurrency sys))%nat ->
  thread_starts sys k = true.
Proof.
  unfold every_thread_starts. rewrite forallb_forall. intros H Hk.
  apply H. apply in_seq. lia.
Qed.

Lemma run_failure sys size :
  allocate sys size = None ->
  main_with sys size boot
  = (Returned 1, {| now := w_boot; log := failure_log size |}).
Proof.
  intros Ha. unfold main_with. rewrite Ha. reflexivity.
Qed.

Lemma run_success sys size fresh :
  allocate sys size = Some fresh ->
  every_thread_starts sys = true ->
  main_with sys size boot
  = (Returned 0, {| now := w_released sys size fresh;
                    log := success_log sys size fresh |}).
Proof.
  intros Ha Hall. destruct (every_thread_starts_halves sys Hall) as [H1 H2].
  unfold main_with, cout. rewrite Ha.
  do 3 run_step.
  unfold bind at 1. rewrite for_loop_spawn by exact H1. cbn [now log].
  unfold bind at 1. rewrite for_loop_spawn.
  2:{ cbn [now]. rewrite loop_world_push.
      cbn [threads boot now app fill_big_array set_big_array].
      rewrite repeat_length. exact H2. }
  cbn [now log].
  unfold print_memory_usage, print_cpu_usage, cout.
  do 6 run_step.
  unfold success_log, load_log, sample_log, release_log, memory_entries.
  fold w_boot. fold (w_reserved fresh). fold (w_filled size fresh).
  fold (w_half sys size fresh). fold (w_loaded sys size fresh).
  fold (w_held sys size fresh).
  destruct (process_memory sys (clock (w_held sys size fresh))) as [pmc|];
    repeat run_step;
    unfold bind at 1; rewrite for_each_detach; cbn [now log];
    unfold ret; repeat (rewrite <- app_assoc; cbn [app]); reflexivity.
Qed.

Lemma run_terminated sys size fresh k :
  allocate sys size = Some fresh ->
  (k < 2 * Z.to_nat (hardware_concurrency sys))%nat ->
  forallb (thread_starts sys) (seq 0 k) = true ->
  thread_starts sys k = false ->
  main_with sys size boot
  = (Terminated, {| now := w_stopped sys size fresh k;
                    log := terminated_log sys size fresh k |}).
Proof.
  intros Ha Hk Hok Hfail.
  unfold main_with, cout. rewrite Ha.
  do 3 run_step.
  unfold terminated_log, stopped_log, w_stopped.
  fold w_boot. fold (w_reserved fresh). fold (w_filled size fresh).
  destruct (Nat.ltb_spec k (Z.to_nat (hardware_concurrency sys))) as [Hlt|Hge].
  - unfold bind at 1.
    rewrite (for_loop_spawn_stops sys cpu_stress k); [reflexivity|exact Hlt| |].
    + exact Hok.
    + exact Hfail.
  - assert (Ek : k = (Z.to_nat (hardware_concurrency sys)
                      + (k - Z.to_nat (hardware_concurrency sys)))%nat) by lia.
    rewrite Ek in Hok. rewrite seq_app, forallb_app in Hok.
    apply andb_prop in Hok. destruct Hok as [H1 H2].
    unfold bind at 1. rewrite for_loop_spawn by exact H1. cbn [now log].
    fold (w_half sys size fresh).
    unfold bind at 1.
    rewrite (for_loop_spawn_stops sys cpu_stress2
               (k - Z.to_nat (hardware_concurrency sys))).
    + cbn [now log]. repeat (rewrite <- app_assoc; cbn [app]). reflexivity.
    + lia.
    + cbn [now]. unfold w_half. rewrite loop_world_push.
      unfold w_filled, w_reserved, w_boot.
      cbn [threads boot now app fill_big_array set_big_array].
      rewrite repeat_length. exact H2.
    + cbn [now]. unfold w_half. rewrite loop_world_push.
      unfold w_filled, w_reserved, w_boot.
      cbn [threads boot now app fill_big_array set_big_array].
      rewrite repeat_length, <- Ek. exact Hfail.
Qed.

(** The three ways a run can go. *)
Lemma run_cases sys size :
  (allocate sys size = None
   /\ main_with sys size boot
      = (Returned 1, {| now := w_boot; log := failure_log size |}))
  \/ (exists fresh,
         allocate sys size = Some fresh
         /\ every_thread_starts sys = true
         /\ main_with sys size boot
            = (Returned 0, {| now := w_released sys size fresh;
                              log := success_log sys size fresh |}))
  \/ (exists fresh k,
         allocate sys size = Some fresh
         /\ every_thread_starts sys = false
         /\ (k < 2 * Z.to_nat (hardware_concurrency sys))%nat
         /\ forallb (thread_starts sys) (seq 0 k) = true
         /\ thread_starts sys k = false
         /\ main_with sys size boot
            = (Terminated, {| now := w_stopped sys size fresh k;
                              log := terminated_log sys size fresh k |})).
Proof.
  destruct (allocate sys size) as [fresh|] eqn:Ha.
  - right. destruct (every_thread_starts sys) eqn:Hall.
    + left. exists fresh. repeat split. now apply run_success.
    + right. destruct (first_failure _ _ Hall) as (k & Hk & H1 & H2).
      exists fresh, k. repeat split; try assumption.
      now apply run_terminated.
  - left. split; [reflexivity|]. now apply run_failure.
Qed.

Lemma loop_entries_push f n w :
  Forall (fun x => fst x = Spawn f
                   /\ clock (snd x) = clock w
                   /\ big_array (snd x) = big_array w)
         (loop_entries (Spawn f) (push_thread f) n w).
Proof.
  revert w. induction n as [|n IH]; intros w; cbn [loop_entries].
  - constructor.
  - constructor; [now repeat split|]. apply (IH (push_thread f w)).
Qed.

Lemma spawned_app f l1 l2 :
  spawned f (l1 ++ l2) = (spawned f l1 + spawned f l2)%nat.
Proof. unfold spawned. now rewrite filter_app, length_app. Qed.

Lemma spawned_loop f g n w :
  spawned f (loop_entries (Spawn g) (push_thread g) n w)
  = match f, g with
    | cpu_stress, cpu_stress | cpu_stress2, cpu_stress2 => n
    | _, _ => O
    end.
Proof.
  revert w. induction n as [|n IH]; intros w.
  - now destruct f, g.
  - cbn [loop_entries]. change (?x :: ?l) with ([x] ++ l).
    rewrite spawned_app, IH. now destruct f, g.
Qed.


Lemma memset_read block value size off :
  0 <= off < size -> memset block value size off = value mod 256.
Proof.
  intros H. unfold memset.
  destruct (Z.leb_spec 0 off); [|lia].
  destruct (Z.ltb_spec off size); [reflexivity|lia].
Qed.

Section RunFacts.

Variable sys : os.
Variable size : Z.
Variable fresh : Z -> Z.

Local Abbreviation n := (Z.to_nat (hardware_concurrency sys)) (only parsing).

Lemma w_loaded_eq :
  w_loaded sys size fresh
  = {| clock := 0; big_array := Some (memset fresh 1 size);
       threads := repeat cpu_stress n ++ repeat cpu_stress2 n |}.
Proof.
  unfold w_loaded, w_half. now rewrite !loop_world_push.
Qed.

Lemma load_log_no_measurement :
  Forall (fun x => is_measurement (fst x) = false) (load_log sys size fresh).
Proof.
  unfold load_log. repeat (constructor; [reflexivity|]).
  apply Forall_app; split; [|apply Forall_app; split].
  - eapply Forall_impl; [|apply loop_entries_push].
    intros x (E & _). now rewrite E.
  - eapply Forall_impl; [|apply loop_entries_push].
    intros x (E & _). now rewrite E.
  - now repeat constructor.
Qed.

Lemma load_log_clock :
  Forall (fun x => clock (snd x) = 0) (load_log sys size fresh).
Proof.
  unfold load_log. repeat (constructor; [reflexivity|]).
  apply Forall_app; split; [|apply Forall_app; split].
  - eapply Forall_impl; [|apply loop_entries_push].
    intros x (_ & E & _). now rewrite E.
  - eapply Forall_impl; [|apply loop_entries_push].
    intros x (_ & E & _). rewrite E. unfold w_half.
    now rewrite loop_world_push.
  - repeat constructor. now rewrite w_loaded_eq.
Qed.

Lemma load_log_spawned :
  spawned cpu_stress (load_log sys size fresh) = n
  /\ spawned cpu_stress2 (load_log sys size fresh) = n.
Proof.
  unfold load_log.
  change (?a :: ?b :: ?c :: ?l) with ([a; b; c] ++ l).
  rewrite !spawned_app, !spawned_loop. cbn. lia.
Qed.

Lemma sample_log_no_spawn :
  Forall (fun x => is_spawn (fst x) = false) (sample_log sys size fresh).
Proof.
  unfold sample_log, memory_entries.
  destruct (process_memory sys _); now repeat constructor.
Qed.

Lemma release_log_no_spawn :
  Forall (fun x => is_spawn (fst x) = false) (release_log sys size fresh).
Proof.
  unfold release_log. constructor; [reflexivity|].
  apply Forall_forall. intros x Hx. apply in_map_iff in Hx.
  now destruct Hx as (t & <- & _).
Qed.

Lemma release_log_no_measurement :
  Forall (fun x => is_measurement (fst x) = false) (release_log sys size fresh).
Proof.
  unfold release_log. constructor; [reflexivity|].
  apply Forall_forall. intros x Hx. apply in_map_iff in Hx.
  now destruct Hx as (t & <- & _).
Qed.

Lemma sample_log_clock :
  Forall (fun x => 10000 <= clock (snd x)) (sample_log sys size fresh).
Proof.
  assert (H0 : clock (w_held sys size fresh) = 10000).
  { unfold w_held. now rewrite w_loaded_eq. }
  assert (H1 : clock (w_sampled sys size fresh) = 11000).
  { unfold w_sampled, advance. now rewrite H0. }
  unfold sample_log, memory_entries.
  destruct (process_memory sys _);
    repeat (constructor; [cbn [snd]; rewrite ?H0, ?H1; lia|]); constructor.
Qed.

Lemma loaded_block_filled w :
  big_array w = Some (memset fresh 1 size) -> filled size 1 w.
Proof.
  intros H. exists (memset fresh 1 size). split; [exact H|].
  intros off Hoff. now rewrite memset_read.
Qed.

Lemma w_held_block :
  big_array (w_held sys size fresh) = Some (memset fresh 1 size).
Proof. unfold w_held. now rewrite w_loaded_eq. Qed.

Lemma held_log_filled :
  Forall (fun x => filled size 1 (snd x))
         (loop_entries (Spawn cpu_stress) (push_thread cpu_stress) n
                       (w_filled size fresh)
          ++ loop_entries (Spawn cpu_stress2) (push_thread cpu_stress2) n
                          (w_half sys size fresh)
          ++ (Out MsgWaiting, w_loaded sys size fresh)
          :: (Sleep 10000, w_held sys size fresh)
          :: sample_log sys size fresh).
Proof.
  pose proof w_held_block as Hh.
  assert (Hs : big_array (w_sampled sys size fresh)
               = Some (memset fresh 1 size)) by exact Hh.
  apply Forall_app; split; [|apply Forall_app; split].
  - eapply Forall_impl; [|apply loop_entries_push].
    intros x (_ & _ & E). now apply loaded_block_filled.
  - eapply Forall_impl; [|apply loop_entries_push].
    intros x (_ & _ & E). apply loaded_block_filled. rewrite E.
    unfold w_half. now rewrite loop_world_push.
  - constructor; [apply loaded_block_filled; now rewrite w_loaded_eq|].
    constructor; [now apply loaded_block_filled|].
    unfold sample_log, memory_entries.
    destruct (process_memory sys _);
      repeat (constructor; [now apply loaded_block_filled|]); constructor.
Qed.

(** The run that is terminated at the start of a thread. *)
Lemma w_stopped_eq k :
  w_stopped sys size fresh k
  = {| clock := 0; big_array := Some (memset fresh 1 size);
       threads := repeat cpu_stress (Nat.min k n)
                  ++ repeat cpu_stress2 (k - n) |}.
Proof.
  unfold w_stopped, w_half.
  destruct (Nat.ltb_spec k n) as [Hlt|Hge]; rewrite !loop_world_push.
  - replace (k - n)%nat with O by lia. rewrite Nat.min_l by lia.
    cbn [repeat]. now rewrite app_nil_r.
  - now rewrite Nat.min_r by lia.
Qed.

Lemma stopped_log_entries k :
  Forall (fun x => (exists f, fst x = Spawn f \/ fst x = SpawnFails f)
                   /\ clock (snd x) = 0
                   /\ big_array (snd x) = Some (memset fresh 1 size))
         (stopped_log sys size fresh k).
Proof.
  assert (Hs : clock (w_stopped sys size fresh k) = 0
               /\ big_array (w_stopped sys size fresh k)
                  = Some (memset fresh 1 size))
    by (now rewrite w_stopped_eq).
  assert (Hh : clock (w_half sys size fresh) = 0
               /\ big_array (w_half sys size fresh)
                  = Some (memset fresh 1 size))
    by (unfold w_half; now rewrite loop_world_push).
  unfold stopped_log. destruct (k <? n)%nat.
  - apply Forall_app; split.
    + eapply Forall_impl; [|apply loop_entries_push].
      intros x (E & Hc & Hb).
      split; [exists cpu_stress; now left|]. now rewrite Hc, Hb.
    + constructor; [|constructor].
      split; [exists cpu_stress; now right|exact Hs].
  - apply Forall_app; split; [|apply Forall_app; split].
    + eapply Forall_impl; [|apply loop_entries_push].
      intros x (E & Hc & Hb).
      split; [exists cpu_stress; now left|]. now rewrite Hc, Hb.
    + eapply Forall_impl; [|apply loop_entries_push].
      intros x (E & Hc & Hb).
      split; [exists cpu_stress2; now left|]. rewrite Hc, Hb. exact Hh.
    + constructor; [|constructor].
      split; [exists cpu_stress2; now right|exact Hs].
Qed.


Lemma terminated_log_quiet k :
  Forall (fun x => is_measurement (fst x) = false
                   /\ is_release (fst x) = false
                   /\ clock (snd x) = 0
                   /\ forall ms, fst x <> Sleep ms)
         (terminated_log sys size fresh k).
Proof.
  unfold terminated_log.
  repeat (constructor; [repeat split; discriminate|]).
  eapply Forall_impl; [|apply stopped_log_entries].
  intros x ((f & [E|E]) & Hc & _); rewrite E;
    repeat split; try exact Hc; discriminate.
Qed.

End RunFacts.

(** ** The driver *)

(** C4. When the reservation fails, the program exits with code 1 and
    starts no thread: no entry of the log is a [Spawn] and the vector of
    threads is empty throughout. When the reservation succeeds and the
    sequence completes, that is, every thread can be started, the run
    goes through to the release of the block and the detaching of the
    threads, and the exit code is 0. A run that cannot start one of its
    threads does not complete, and has no exit code. *)
Theorem main_exit_code sys size :
  (allocate sys size = None ->
   exit_code sys size = Returned 1
   /\ threads (now (final sys size)) = []
   /\ Forall (fun x => is_spawn (fst x) = false /\ threads (snd x) = [])
             (log (final sys size)))
  /\ (forall fresh, allocate sys size = Some fresh ->
      every_thread_starts sys = true ->
      exit_code sys size = Returned 0
      /\ exists l, log (final sys size) = l ++ release_log sys size fresh)
  /\ (forall fresh, allocate sys size = Some fresh ->
      every_thread_starts sys = false ->
      exit_code sys size = Terminated).
Proof.
  unfold exit_code, final. split; [|split].
  - intros Ha. rewrite (run_failure sys size Ha). cbn [fst snd now log].
    repeat split. unfold failure_log. now repeat constructor.
  - intros fresh Ha Hall. rewrite (run_success sys size fresh Ha Hall).
    cbn [fst snd now log]. split; [reflexivity|].
    unfold success_log.
    exists (load_log sys size fresh
            ++ (Sleep 10000, w_held sys size fresh) :: sample_log sys size fresh).
    rewrite <- app_assoc. reflexivity.
  - intros fresh Ha Hall.
    destruct (first_failure _ _ Hall) as (k & Hk & H1 & H2).
    now rewrite (run_terminated sys size fresh k Ha Hk H1 H2).
Qed.

Lemma main_exit_code_witness :
  exit_code os_out_of_memory SIZE = Returned 1
  /\ exit_code os_two_cores SIZE = Returned 0
  /\ exit_code os_one_thread SIZE = Terminated.
Proof.
  destruct (main_exit_code os_out_of_memory SIZE) as (H1 & _ & _).
  destruct (main_exit_code os_two_cores SIZE) as (_ & H2 & _).
  destruct (main_exit_code os_one_thread SIZE) as (_ & _ & H3).
  split; [|split].
  - apply H1. reflexivity.
  - apply (H2 (fun _ => 0)); reflexivity.
  - apply (H3 (fun _ => 0)); reflexivity.
Defined.

(** C5. After a successful reservation of [size] bytes the log reads:
    entries without any thread start or measurement, then the [memset]
    with the value 1, which is not zero, after which every offset in
    [0, size) holds 1; then entries, among them all thread starts and
    all measurements, in each of which every offset in [0, size) still
    holds 1; then the release, when every thread could be started, and
    nothing more when one could not. *)
Theorem block_filled_before_load sys size fresh :
  allocate sys size = Some fresh ->
  exists before w after last,
    log (final sys size)
    = before ++ (Memset 1 size, w) :: after ++ last
    /\ Forall (fun x => is_spawn (fst x) = false
                        /\ is_measurement (fst x) = false) before
    /\ filled size 1 w /\ 1 <> 0
    /\ Forall (fun x => filled size 1 (snd x)) after
    /\ Forall (fun x => is_spawn (fst x) = false
                        /\ is_measurement (fst x) = false) last
    /\ (every_thread_starts sys = true -> last = release_log sys size fresh)
    /\ (every_thread_starts sys = false -> last = []).
Proof.
  intros Ha. unfold final.
  destruct (every_thread_starts sys) eqn:Hall.
  - rewrite (run_success sys size fresh Ha Hall). cbn [snd log].
    exists [(Out MsgReserving, w_boot); (New size true, w_reserved fresh)],
           (w_filled size fresh),
           (loop_entries (Spawn cpu_stress) (push_thread cpu_stress)
                         (Z.to_nat (hardware_concurrency sys))
                         (w_filled size fresh)
            ++ loop_entries (Spawn cpu_stress2) (push_thread cpu_stress2)
                            (Z.to_nat (hardware_concurrency sys))
                            (w_half sys size fresh)
            ++ (Out MsgWaiting, w_loaded sys size fresh)
            :: (Sleep 10000, w_held sys size fresh)
            :: sample_log sys size fresh),
           (release_log sys size fresh).
    split; [|split; [|split; [|split; [|split; [|split; [|split]]]]]].
    + unfold success_log, load_log.
      repeat (rewrite <- app_assoc; cbn [app]). reflexivity.
    + now repeat constructor.
    + now apply (loaded_block_filled size fresh).
    + discriminate.
    + apply held_log_filled.
    + pose proof (release_log_no_spawn sys size fresh) as H1.
      pose proof (release_log_no_measurement sys size fresh) as H2.
      rewrite Forall_forall in *. intros x Hx. split; auto.
    + reflexivity.
    + discriminate.
  - destruct (first_failure _ _ Hall) as (k & Hk & H1 & H2).
    rewrite (run_terminated sys size fresh k Ha Hk H1 H2). cbn [snd log].
    exists [(Out MsgReserving, w_boot); (New size true, w_reserved fresh)],
           (w_filled size fresh), (stopped_log sys size fresh k), [].
    split; [|split; [|split; [|split; [|split; [|split; [|split]]]]]].
    + unfold terminated_log. now rewrite app_nil_r.
    + now repeat constructor.
    + now apply (loaded_block_filled size fresh).
    + discriminate.
    + eapply Forall_impl; [|apply stopped_log_entries].
      intros x (_ & _ & Hb). now apply (loaded_block_filled size fresh).
    + constructor.
    + discriminate.
    + reflexivity.
Qed.

Lemma block_filled_before_load_witness :
  exists before w after,
    log (final os_two_cores 4096)
    = before ++ (Memset 1 4096, w) :: after
             ++ release_log os_two_cores 4096 (fun _ => 0)
    /\ filled 4096 1 w
    /\ Forall (fun x => filled 4096 1 (snd x)) after.
Proof.
  destruct (block_filled_before_load os_two_cores 4096 (fun _ => 0) eq_refl)
    as (before & w & after & last & H1 & _ & H2 & _ & H3 & _ & H4 & _).
  rewrite (H4 eq_refl) in H1.
  exists before, w, after. repeat split; assumption.
Defined.




(** C8. In every run, a measurement ([GetProcessMemoryInfo] or
    [GetSystemTimes]) comes after the [Sleep] of 10000 ms, and that hold
    comes after every thread start: before it the log has no measurement
    and all [2 n] thread starts, after it no thread start; on the clock
    of the run every entry before the hold is at least 10000 ms older
    than the measurement. *)
Theorem measurement_after_hold sys size y :
  In y (log (final sys size)) ->
  is_measurement (fst y) = true ->
  exists before w after,
    log (final sys size) = before ++ (Sleep 10000, w) :: after
    /\ In y after
    /\ Forall (fun x => is_measurement (fst x) = false) before
    /\ Forall (fun x => is_spawn (fst x) = false) after
    /\ (spawned cpu_stress before + spawned cpu_stress2 before
        = 2 * Z.to_nat (hardware_concurrency sys))%nat
    /\ length (threads w) = (2 * Z.to_nat (hardware_concurrency sys))%nat
    /\ Forall (fun x => clock (snd x) + 10000 <= clock (snd y)) before.
Proof.
  unfold final. intros Hy Hm.
  destruct (run_cases sys size)
    as [(Ha & Hrun)|[(fresh & Ha & Hall & Hrun)
                    |(fresh & k & Ha & Hall & Hk & H1 & H2 & Hrun)]];
    rewrite Hrun in *; cbn [snd log] in *.
  - exfalso. unfold failure_log in Hy. cbn [In] in Hy.
    destruct Hy as [<-|[<-|[<-|[]]]]; discriminate.
  - exists (load_log sys size fresh), (w_held sys size fresh),
           (sample_log sys size fresh ++ release_log sys size fresh).
    pose proof (load_log_no_measurement sys size fresh) as Hload.
    assert (Hafter : In y (sample_log sys size fresh
                           ++ release_log sys size fresh)).
    { unfold success_log in Hy. apply in_app_or in Hy.
      destruct Hy as [Hy|[Hy|Hy]]; [| |exact Hy].
      - rewrite Forall_forall in Hload. rewrite (Hload _ Hy) in Hm.
        discriminate.
      - subst y. discriminate. }
    assert (Hclock : 10000 <= clock (snd y)).
    { apply in_app_or in Hafter. destruct Hafter as [Hs|Hr].
      - pose proof (sample_log_clock sys size fresh) as Hc.
        rewrite Forall_forall in Hc. now apply Hc.
      - pose proof (release_log_no_measurement sys size fresh) as Hc.
        rewrite Forall_forall in Hc. rewrite (Hc _ Hr) in Hm. discriminate. }
    destruct (load_log_spawned sys size fresh) as [E1 E2].
    repeat split.
    + exact Hafter.
    + exact Hload.
    + apply Forall_app. split;
        [apply sample_log_no_spawn|apply release_log_no_spawn].
    + rewrite E1, E2. lia.
    + unfold w_held. rewrite w_loaded_eq. cbn [advance threads].
      rewrite length_app, !repeat_length. lia.
    + eapply Forall_impl; [|apply load_log_clock].
      intros x Hx. cbn beta in Hx. rewrite Hx. lia.
  - exfalso.
    pose proof (terminated_log_quiet sys size fresh k) as Hq.
    rewrite Forall_forall in Hq. destruct (Hq _ Hy) as (Hq1 & _).
    rewrite Hq1 in Hm. discriminate.
Qed.

Lemma first_snapshot_logged sys size fresh :
  allocate sys size = Some fresh ->
  every_thread_starts sys = true ->
  In (GetSystemTimes, w_held sys size fresh) (log (final sys size)).
Proof.
  intros Ha Hall. unfold final. rewrite (run_success sys size fresh Ha Hall).
  cbn [snd log]. unfold success_log, sample_log.
  apply in_or_app. right. right. right. right.
  apply in_or_app. left. apply in_or_app. right.
  cbn [In]. tauto.
Qed.

Lemma measurement_after_hold_witness :
  exists before w after,
    log (final os_two_cores 4096) = before ++ (Sleep 10000, w) :: after
    /\ Forall (fun x => is_measurement (fst x) = false) before
    /\ length (threads w) = 4%nat.
Proof.
  destruct (measurement_after_hold os_two_cores 4096
              (GetSystemTimes, w_held os_two_cores 4096 (fun _ => 0)))
    as (before & w & after & H1 & _ & H2 & _ & _ & H3 & _).
  - apply (first_snapshot_logged os_two_cores 4096 (fun _ => 0) eq_refl eq_refl).
  - reflexivity.
  - exists before, w, after. repeat split; assumption.
Defined.

(** ** The memory sample *)

(** C7. The two byte counts of the process, read after the hold, are
    printed divided by [1024 * 1024] with the remainder dropped: the
    number printed is the quotient of the truncating division, the
    largest number of whole megabytes not above the byte count; a count
    of [2 * 1024 * 1024 * 3] bytes is printed as 6. The counts are read
    in the runs that get as far, those with a block and all their
    threads. *)
Theorem memory_reported_in_megabytes sys size fresh pmc :
  allocate sys size = Some fresh ->
  every_thread_starts sys = true ->
  process_memory sys 10000 = Some pmc ->
  U64.in_range (PagefileUsage pmc) ->
  U64.in_range (WorkingSetSize pmc) ->
  exists vm rss w,
    In (Out (MsgVmSize vm), w) (log (final sys size))
    /\ In (Out (MsgVmRSS rss), w) (log (final sys size))
    /\ vm = Z.quot (PagefileUsage pmc) (1024 * 1024)
    /\ rss = Z.quot (WorkingSetSize pmc) (1024 * 1024)
    /\ vm * (1024 * 1024) <= PagefileUsage pmc < (vm + 1) * (1024 * 1024)
    /\ rss * (1024 * 1024) <= WorkingSetSize pmc < (rss + 1) * (1024 * 1024)
    /\ megabytes (2 * 1024 * 1024 * 3) = 6.
Proof.
  intros Ha Hall Hpmc [Hv0 Hv1] [Hr0 Hr1].
  exists (megabytes (PagefileUsage pmc)), (megabytes (WorkingSetSize pmc)),
         (w_held sys size fresh).
  assert (Hclock : clock (w_held sys size fresh) = 10000).
  { unfold w_held. now rewrite w_loaded_eq. }
  assert (Hin : forall x,
             In x (memory_entries sys (w_held sys size fresh)) ->
             In x (log (final sys size))).
  { intros x Hx. unfold final. rewrite (run_success sys size fresh Ha Hall).
    cbn [snd log]. unfold success_log, sample_log.
    apply in_or_app. right. right. right. right.
    apply in_or_app. left. apply in_or_app. now left. }
  unfold memory_entries in Hin. rewrite Hclock, Hpmc in Hin.
  unfold megabytes.
  split; [apply Hin; cbn; tauto|].
  split; [apply Hin; cbn; tauto|].
  split; [now rewrite Z.quot_div_nonneg by lia|].
  split; [now rewrite Z.quot_div_nonneg by lia|].
  split; [|split; [|reflexivity]].
  - pose proof (Z.mul_div_le (PagefileUsage pmc) (1024 * 1024) ltac:(lia)).
    pose proof (Z.mul_succ_div_gt (PagefileUsage pmc) (1024 * 1024) ltac:(lia)).
    lia.
  - pose proof (Z.mul_div_le (WorkingSetSize pmc) (1024 * 1024) ltac:(lia)).
    pose proof (Z.mul_succ_div_gt (WorkingSetSize pmc) (1024 * 1024) ltac:(lia)).
    lia.
Qed.

Lemma memory_reported_in_megabytes_witness :
  exists w,
    In (Out (MsgVmSize 6), w) (log (final os_two_cores 4096))
    /\ In (Out (MsgVmRSS 5), w) (log (final os_two_cores 4096)).
Proof.
  destruct (memory_reported_in_megabytes os_two_cores 4096 (fun _ => 0)
              {| PagefileUsage := 2 * 1024 * 1024 * 3;
                 WorkingSetSize := 5 * 1024 * 1024 + 17 |}
              eq_refl eq_refl eq_refl)
    as (vm & rss & w & H1 & H2 & -> & -> & _).
  - unfold U64.in_range. rewrite modulus_value. simpl. lia.
  - unfold U64.in_range. rewrite modulus_value. simpl. lia.
  - exists w. split; [exact H1|exact H2].
Defined.

(** ** The workers *)

Lemma iterate_snoc {St : Type} (step : St -> outcome St) k s s' s'' :
  iterate step k s = Done s' ->
  step s' = Done s'' ->
  iterate step (S k) s = Done s''.
Proof.
  revert s. induction k as [|k IH]; intros s Hk Hstep.
  - simpl in Hk. injection Hk as ->. simpl. now rewrite Hstep.
  - cbn [iterate] in Hk |- *.
    destruct (step s) as [t| |]; try discriminate.
    now apply IH.
Qed.

Lemma cpu_stress_pass k :
  Z.of_nat k <= 100000000 ->
  exists r, iterate cpu_stress_step k cpu_stress_start
            = Done {| result := r; i := Z.of_nat k |}.
Proof.
  induction k as [|k IH]; intros Hk.
  - now exists (Binary64.of_Z 0).
  - destruct IH as [r Hr]; [lia|].
    eexists. eapply iterate_snoc; [exact Hr|].
    unfold cpu_stress_step. cbn [i result].
    destruct (Z.ltb_spec (Z.of_nat k) 100000000); [|lia].
    now rewrite Nat2Z.inj_succ.
Qed.

Lemma cpu_stress_keeps_running k :
  exists s, iterate cpu_stress_step k cpu_stress_start = Done s
            /\ 0 <= i s <= 100000000.
Proof.
  induction k as [|k (s & Hs & Hi)].
  - exists cpu_stress_start. split; [reflexivity|simpl; lia].
  - unfold cpu_stress_step.
    destruct (i s <? 100000000) eqn:E.
    + eexists. split.
      * eapply iterate_snoc; [exact Hs|]. unfold cpu_stress_step.
        now rewrite E.
      * apply Z.ltb_lt in E. cbn [i]. lia.
    + exists cpu_stress_start. split.
      * eapply iterate_snoc; [exact Hs|]. unfold cpu_stress_step.
        now rewrite E.
      * simpl. lia.
Qed.

Lemma cpu_stress2_step_returns num :
  U64.in_range num ->
  exists fuel, forall fuel', (fuel <= fuel')%nat ->
    cpu_stress2_step fuel' num = Done (U64.add num 1).
Proof.
  intros Hnum. destruct (is_prime_returns num Hnum) as [fuel Hfuel].
  exists fuel. intros fuel' Hle. unfold cpu_stress2_step.
  now rewrite (is_prime_fuel_mono _ _ _ _ Hfuel Hle).
Qed.

Lemma cpu_stress2_keeps_running k :
  exists fuel, forall fuel', (fuel <= fuel')%nat ->
    iterate (cpu_stress2_step fuel') k cpu_stress2_start
    = Done (U64.wrap (2 + Z.of_nat k)).
Proof.
  induction k as [|k [fuel IH]].
  - exists O. intros fuel' _. reflexivity.
  - destruct (cpu_stress2_step_returns (U64.wrap (2 + Z.of_nat k))
                (wrap_in_range _)) as [fuel1 Hstep].
    exists (Nat.max fuel fuel1). intros fuel' Hle.
    eapply iterate_snoc; [apply IH; lia|].
    rewrite Hstep by lia. f_equal.
    unfold U64.add, U64.wrap. rewrite Z.add_mod_idemp_l by discriminate.
    f_equal. lia.
Qed.

(** C9. Neither worker returns. However many passes [cpu_stress] has
    made, it is in a state with [0 <= i <= 100000000] and makes another;
    within a round it counts [i] from 0 to 100000000, adding [sqrt(i)]
    to [result], and the pass at [i = 100000000] starts the next round
    with [result = 0] and [i = 0]. However many passes [cpu_stress2] has
    made, the call of [is_prime] returns and the counter, which started
    at 2, is incremented again. *)
Theorem workers_never_return (k : nat) :
  (exists s s',
      iterate cpu_stress_step k cpu_stress_start = Done s
      /\ 0 <= i s <= 100000000
      /\ cpu_stress_step s = Done s')
  /\ (Z.of_nat k <= 100000000 ->
      exists r, iterate cpu_stress_step k cpu_stress_start
                = Done {| result := r; i := Z.of_nat k |})
  /\ (forall r, cpu_stress_step {| result := r; i := 100000000 |}
                = Done cpu_stress_start)
  /\ (forall r j, 0 <= j < 100000000 ->
        cpu_stress_step {| result := r; i := j |}
        = Done {| result := Binary64.add r (Binary64.sqrt (Binary64.of_Z j));
                  i := j + 1 |})
  /\ (exists fuel, forall fuel', (fuel <= fuel')%nat ->
        iterate (cpu_stress2_step fuel') k cpu_stress2_start
        = Done (U64.wrap (2 + Z.of_nat k))
        /\ cpu_stress2_step fuel' (U64.wrap (2 + Z.of_nat k))
           = Done (U64.wrap (2 + Z.of_nat (S k)))).
Proof.
  split; [|split; [|split; [|split]]].
  - destruct (cpu_stress_keeps_running k) as (s & Hs & Hi).
    exists s. unfold cpu_stress_step.
    destruct (i s <? 100000000); eexists; repeat split; try exact Hs; lia.
  - apply cpu_stress_pass.
  - reflexivity.
  - intros r j Hj. unfold cpu_stress_step. cbn [i result].
    destruct (Z.ltb_spec j 100000000); [reflexivity|lia].
  - destruct (cpu_stress2_keeps_running k) as [fuel1 H1].
    destruct (cpu_stress2_keeps_running (S k)) as [fuel2 H2].
    destruct (cpu_stress2_step_returns (U64.wrap (2 + Z.of_nat k))
                (wrap_in_range _)) as [fuel3 H3].
    exists (Nat.max fuel1 (Nat.max fuel2 fuel3)). intros fuel' Hle.
    split; [apply H1; lia|].
    rewrite H3 by lia. f_equal.
    unfold U64.add, U64.wrap. rewrite Z.add_mod_idemp_l by discriminate.
    f_equal. lia.
Qed.

Lemma workers_never_return_witness :
  exists r, iterate cpu_stress_step 3 cpu_stress_start
            = Done {| result := r; i := 3 |}.
Proof.
  destruct (workers_never_return 3) as (_ & H & _).
  apply H. simpl. lia.
Defined.

(** ** Binary64 arithmetic

    What [SpecFloat] computes, for the operations of [print_cpu_usage]:
    each gives a finite number within half a unit in the last place of
    the exact result. *)

Lemma digits2_pos_bounds p :
  2 ^ (Zpos (digits2_pos p) - 1) <= Zpos p < 2 ^ Zpos (digits2_pos p).
Proof.
  induction p as [p IH|p IH|]; cbn [digits2_pos].
  - rewrite Pos2Z.inj_succ. change (Zpos p~1) with (2 * Zpos p + 1).
    replace (Z.succ (Zpos (digits2_pos p)) - 1) with (Z.succ (Zpos (digits2_pos p) - 1)) by lia.
    rewrite !Z.pow_succ_r by lia.
    destruct IH as [IH1 IH2]. revert IH1 IH2.
    generalize (2 ^ (Zpos (digits2_pos p) - 1)) (2 ^ Zpos (digits2_pos p)). lia.
  - rewrite Pos2Z.inj_succ. change (Zpos p~0) with (2 * Zpos p).
    replace (Z.succ (Zpos (digits2_pos p)) - 1) with (Z.succ (Zpos (digits2_pos p) - 1)) by lia.
    rewrite !Z.pow_succ_r by lia.
    destruct IH as [IH1 IH2]. revert IH1 IH2.
    generalize (2 ^ (Zpos (digits2_pos p) - 1)) (2 ^ Zpos (digits2_pos p)). lia.
  - simpl. lia.
Qed.

Lemma Zdigits2_unique m d :
  0 < d -> 2 ^ (d - 1) <= m < 2 ^ d -> Zdigits2 m = d.
Proof.
  intros Hd [Hlo Hhi].
  assert (Hm : 0 < m) by (pose proof (Z.pow_pos_nonneg 2 (d - 1)); lia).
  destruct m as [|p|p]; try lia. cbn [Zdigits2].
  pose proof (digits2_pos_bounds p) as [Hl Hh].
  set (c := Zpos (digits2_pos p)) in *.
  assert (Hc : 0 < c) by (subst c; lia).
  destruct (Z.lt_trichotomy c d) as [H|[H|H]]; [exfalso|exact H|exfalso].
  - assert (2 ^ c <= 2 ^ (d - 1)) by (apply Z.pow_le_mono_r; lia). lia.
  - assert (2 ^ d <= 2 ^ (c - 1)) by (apply Z.pow_le_mono_r; lia). lia.
Qed.

Lemma shr_1_brackets N D mrs :
  0 < D -> 0 <= shr_m mrs -> brackets N D mrs ->
  brackets N (2 * D) (shr_1 mrs) /\ 0 <= shr_m (shr_1 mrs).
Proof.
  intros HD Hm. destruct mrs as [m r s]. cbn [shr_m] in Hm.
  unfold brackets. cbn [shr_m shr_r shr_s].
  destruct m as [|[p|p|]|p]; try lia;
    destruct r, s; cbn [shr_1 shr_m shr_r shr_s orb];
    try change (Zpos p~1) with (2 * Zpos p + 1);
    try change (Zpos p~0) with (2 * Zpos p);
    intros H; split; nia.
Qed.

Lemma iter_pos_shr_brackets N k :
  forall D mrs,
    0 < D -> 0 <= shr_m mrs -> brackets N D mrs ->
    brackets N (D * 2 ^ Zpos k) (iter_pos shr_1 k mrs)
    /\ 0 <= shr_m (iter_pos shr_1 k mrs).
Proof.
  induction k as [k IH|k IH|]; intros D mrs HD Hm Hb; cbn [iter_pos].
  - destruct (shr_1_brackets N D mrs HD Hm Hb) as [H1 H1'].
    destruct (IH (2 * D) _ ltac:(lia) H1' H1) as [H2 H2'].
    assert (Hp : 0 < 2 ^ Zpos k) by (apply Z.pow_pos_nonneg; lia).
    destruct (IH (2 * D * 2 ^ Zpos k) _ ltac:(nia) H2' H2) as [H3 H3'].
    split; [|exact H3'].
    replace (D * 2 ^ Zpos k~1) with (2 * D * 2 ^ Zpos k * 2 ^ Zpos k); [exact H3|].
    change (Zpos k~1) with (2 * Zpos k + 1). rewrite Z.pow_add_r, Z.pow_mul_r by lia.
    change (2 ^ 2) with 4. change (2 ^ 1) with 2.
    replace (4 ^ Zpos k) with (2 ^ Zpos k * 2 ^ Zpos k); [ring|].
    rewrite <- Z.pow_mul_l. reflexivity.
  - destruct (IH D _ HD Hm Hb) as [H2 H2'].
    assert (Hp : 0 < 2 ^ Zpos k) by (apply Z.pow_pos_nonneg; lia).
    destruct (IH (D * 2 ^ Zpos k) _ ltac:(nia) H2' H2) as [H3 H3'].
    split; [|exact H3'].
    replace (D * 2 ^ Zpos k~0) with (D * 2 ^ Zpos k * 2 ^ Zpos k); [exact H3|].
    change (Zpos k~0) with (2 * Zpos k). rewrite Z.pow_mul_r by lia.
    change (2 ^ 2) with 4.
    replace (4 ^ Zpos k) with (2 ^ Zpos k * 2 ^ Zpos k); [ring|].
    rewrite <- Z.pow_mul_l. reflexivity.
  - destruct (shr_1_brackets N D mrs HD Hm Hb) as [H1 H1'].
    split; [|exact H1']. replace (D * 2 ^ 1) with (2 * D) by lia. exact H1.
Qed.

Lemma brackets_floor N D mrs :
  0 < D -> brackets N D mrs ->
  shr_m mrs * D <= N < (shr_m mrs + 1) * D.
Proof.
  intros HD. unfold brackets. destruct (shr_r mrs), (shr_s mrs); nia.
Qed.

Lemma round_nearest_even_brackets N D mrs :
  0 < D -> brackets N D mrs ->
  let m1 := round_nearest_even (shr_m mrs) (loc_of_shr_record mrs) in
  shr_m mrs <= m1 <= shr_m mrs + 1 /\ Z.abs (2 * m1 * D - 2 * N) <= D.
Proof.
  intros HD. destruct mrs as [m r s]. unfold brackets.
  cbn [shr_m shr_r shr_s loc_of_shr_record].
  destruct r, s; cbn [round_nearest_even]; intros H;
    try destruct (Z.even m); split; nia.
Qed.

Lemma fexp_normal e :
  -1074 <= e - 53 -> fexp 53 1024 e = e - 53.
Proof. intros H. unfold fexp, emin. lia. Qed.

(** First shift of [binary_round_aux]: a mantissa of [d >= 53] digits
    loses [d - 53] of them. *)
Lemma shr_fexp_brackets N D mx ex lx :
  0 < D -> 0 < mx ->
  brackets N D (shr_record_of_loc mx lx) ->
  53 <= Zdigits2 mx ->
  -1074 <= Zdigits2 mx + ex - 53 ->
  exists mrs,
    shr_fexp 53 1024 mx ex lx = (mrs, ex + (Zdigits2 mx - 53))
    /\ brackets N (D * 2 ^ (Zdigits2 mx - 53)) mrs
    /\ 2 ^ 52 <= shr_m mrs < 2 ^ 53.
Proof.
  intros HD Hmx Hb Hd He.
  assert (Hm0 : shr_m (shr_record_of_loc mx lx) = mx).
  { destruct lx as [|[| |]]; reflexivity. }
  assert (Hdig : 2 ^ (Zdigits2 mx - 1) <= mx < 2 ^ Zdigits2 mx).
  { destruct mx as [|p|p]; try lia. apply digits2_pos_bounds. }
  unfold shr_fexp. rewrite fexp_normal by lia.
  replace (Zdigits2 mx + ex - 53 - ex) with (Zdigits2 mx - 53) by lia.
  remember (Zdigits2 mx) as d eqn:Ed.
  destruct (Z.eq_dec d 53) as [->|Hne].
  - exists (shr_record_of_loc mx lx).
    change (53 - 53) with 0. cbn [shr].
    split; [f_equal; lia|]. split.
    + now replace (D * 2 ^ 0) with D by lia.
    + rewrite Hm0. change (53 - 1) with 52 in Hdig. exact Hdig.
  - destruct (d - 53) as [|k|k] eqn:Ek; try lia.
    cbn [shr].
    destruct (iter_pos_shr_brackets N k D (shr_record_of_loc mx lx) HD
                ltac:(rewrite Hm0; lia) Hb) as [Hb' Hm'].
    exists (iter_pos shr_1 k (shr_record_of_loc mx lx)).
    split; [reflexivity|]. split; [exact Hb'|].
    pose proof (brackets_floor N D _ HD Hb) as Hf. rewrite Hm0 in Hf.
    assert (HP : 0 < 2 ^ Zpos k) by (apply Z.pow_pos_nonneg; lia).
    pose proof (brackets_floor N (D * 2 ^ Zpos k) _ ltac:(nia) Hb') as Hf'.
    assert (E1 : 2 ^ d = 2 ^ 53 * 2 ^ Zpos k).
    { replace d with (53 + Zpos k) by lia. apply Z.pow_add_r; lia. }
    assert (E2 : 2 ^ (d - 1) = 2 ^ 52 * 2 ^ Zpos k).
    { replace (d - 1) with (52 + Zpos k) by lia. apply Z.pow_add_r; lia. }
    rewrite E1, E2 in Hdig.
    revert Hf Hf' Hdig HP. generalize (2 ^ Zpos k).
    generalize (shr_m (iter_pos shr_1 k (shr_record_of_loc mx lx))).
    change (2 ^ 52) with 4503599627370496.
    change (2 ^ 53) with 9007199254740992.
    intros m' P Hf Hf' Hdig HP. split; nia.
Qed.

(** [binary_round_aux] on a mantissa of at least 53 digits, in the range
    of the normal numbers: the result is finite, its mantissa has 53
    digits, and it is within half a unit in the last place of the value
    [N / D * 2 ^ ex] that the mantissa and its location stand for. *)
Lemma binary_round_aux_spec sx mx ex lx N D :
  0 < D -> 0 < mx ->
  brackets N D (shr_record_of_loc mx lx) ->
  53 <= Zdigits2 mx ->
  -1074 <= Zdigits2 mx + ex - 53 ->
  Zdigits2 mx + ex <= 1023 ->
  exists m e,
    binary_round_aux 53 1024 sx mx ex lx = S754_finite sx m e
    /\ ex + (Zdigits2 mx - 53) <= e <= ex + (Zdigits2 mx - 53) + 1
    /\ 2 ^ 52 <= Zpos m < 2 ^ 53
    /\ Z.abs (2 * (Zpos m * 2 ^ (e - ex)) * D - 2 * N) <= 2 ^ (e - ex) * D.
Proof.
  intros HD Hmx Hb Hd He Hmax.
  destruct (shr_fexp_brackets N D mx ex lx HD Hmx Hb Hd He)
    as (mrs & Hshr & Hb1 & Hm1).
  unfold binary_round_aux. rewrite Hshr.
  set (k := Zdigits2 mx - 53) in *.
  assert (Hk : 0 <= k) by (subst k; lia).
  assert (HP : 0 < 2 ^ k) by (apply Z.pow_pos_nonneg; lia).
  destruct (round_nearest_even_brackets N (D * 2 ^ k) mrs ltac:(nia) Hb1)
    as [Hr1 Hr2].
  set (m1 := round_nearest_even (shr_m mrs) (loc_of_shr_record mrs)) in *.
  change (2 ^ 52) with 4503599627370496 in *.
  change (2 ^ 53) with 9007199254740992 in *.
  destruct (Z.eq_dec m1 9007199254740992) as [Hc|Hc].
  - (* the mantissa was rounded up to [2 ^ 53] *)
    rewrite Hc in *. unfold shr_fexp.
    change (Zdigits2 9007199254740992) with 54.
    rewrite fexp_normal by lia.
    replace (54 + (ex + k) - 53 - (ex + k)) with 1 by lia.
    cbn [shr shr_record_of_loc iter_pos shr_1 shr_m].
    destruct (Z.leb_spec (ex + k + 1) (1024 - 53)); [|lia].
    exists 4503599627370496%positive, (ex + k + 1).
    split; [reflexivity|]. split; [lia|]. split; [lia|].
    replace (ex + k + 1 - ex) with (k + 1) by lia.
    rewrite Z.pow_add_r by lia. change (2 ^ 1) with 2.
    revert Hr2 HP. generalize (2 ^ k). intros P Hr2 HP. nia.
  - assert (Hm1' : 4503599627370496 <= m1 < 9007199254740992) by lia.
    unfold shr_fexp.
    rewrite (Zdigits2_unique m1 53) by (change (2 ^ (53 - 1)) with 4503599627370496;
                                         change (2 ^ 53) with 9007199254740992; lia).
    rewrite fexp_normal by lia.
    replace (53 + (ex + k) - 53 - (ex + k)) with 0 by lia.
    cbn [shr shr_record_of_loc shr_m].
    destruct m1 as [|m|m] eqn:Em; try lia.
    destruct (Z.leb_spec (ex + k) (1024 - 53)); [|lia].
    exists m, (ex + k). split; [reflexivity|]. split; [lia|]. split; [lia|].
    replace (ex + k - ex) with k by lia.
    revert Hr2 HP. generalize (2 ^ k). intros P Hr2 HP. nia.
Qed.

Lemma pow2_pos e : (0 < Qpower 2 e)%Q.
Proof. apply Qpower_0_lt. reflexivity. Qed.

Lemma pow2_split e ex :
  ex <= e ->
  (Qpower 2 e == inject_Z (2 ^ (e - ex)) * Qpower 2 ex)%Q.
Proof.
  intros H. rewrite Zpower_Qpower by lia.
  rewrite <- Qpower_plus by discriminate.
  replace (e - ex + ex) with e by lia. reflexivity.
Qed.

Lemma Q_nonzero_of_pos (d : Q) : (0 < d)%Q -> ~ (d == 0)%Q.
Proof. intros Hd Hz. rewrite Hz in Hd. now apply Qlt_irrefl in Hd. Qed.

(** The inequality between integers behind a rounding, read as a
    relative error of the value. *)
Lemma rel_close_scaled (M p n d u w : Q) :
  (0 < u)%Q -> (0 < d)%Q -> (0 < p)%Q ->
  (4503599627370496 <= M)%Q ->
  (w == p * u)%Q ->
  (2 * n <= 2 * (M * p) * d + p * d)%Q ->
  (2 * (M * p) * d <= 2 * n + p * d)%Q ->
  (Qabs (M * w - n / d * u) <= Qpower 2 (-53) * (M * w))%Q /\ (0 <= M * w)%Q.
Proof.
  intros Hu Hd Hp HM Hw H1 H2.
  pose proof (Q_nonzero_of_pos d Hd) as Hdn.
  assert (E : (M * w - n / d * u == (u / d) * (M * p * d - n))%Q).
  { rewrite Hw. field. exact Hdn. }
  assert (Hud : (0 < u / d)%Q).
  { apply Qlt_shift_div_l; [exact Hd|]. rewrite Qmult_0_l. exact Hu. }
  assert (Hpd : (0 < p * d)%Q) by (apply Qmult_lt_0_compat; assumption).
  assert (Hbig : (4503599627370496 * (p * d) <= M * (p * d))%Q).
  { apply Qmult_le_compat_r; [exact HM|lra]. }
  split.
  - rewrite E, Qabs_Qmult, (Qabs_pos (u / d)) by lra.
    assert (Hin : (Qabs (M * p * d - n) <= Qpower 2 (-53) * (M * p * d))%Q).
    { apply Qabs_Qle_condition.
      change (Qpower 2 (-53)) with (1 # 9007199254740992)%Q.
      split; lra. }
    apply (Qmult_le_l _ _ (u / d) Hud) in Hin.
    eapply Qle_trans; [exact Hin|].
    rewrite Hw. apply Qle_lteq. right. field. exact Hdn.
  - rewrite Hw. apply Qmult_le_0_compat; [lra|].
    apply Qmult_le_0_compat; lra.
Qed.

Lemma rel_close_of_integers s m e ex N D :
  0 < D -> 0 <= N -> ex <= e ->
  2 ^ 52 <= Zpos m ->
  Z.abs (2 * (Zpos m * 2 ^ (e - ex)) * D - 2 * N) <= 2 ^ (e - ex) * D ->
  rel_close (Binary64.to_Q (S754_finite s m e))
            (signed s (inject_Z N / inject_Z D * Qpower 2 ex)).
Proof.
  intros HD HN He Hm Habs.
  assert (HP : 0 < 2 ^ (e - ex)) by (apply Z.pow_pos_nonneg; lia).
  assert (H1 : 2 * N <= 2 * (Zpos m * 2 ^ (e - ex)) * D + 2 ^ (e - ex) * D) by lia.
  assert (H2 : 2 * (Zpos m * 2 ^ (e - ex)) * D <= 2 * N + 2 ^ (e - ex) * D) by lia.
  rewrite Zle_Qle in H1, H2, Hm. rewrite Zlt_Qlt in HD, HP.
  rewrite ?inject_Z_plus, ?inject_Z_mult in H1, H2.
  destruct (rel_close_scaled (inject_Z (Zpos m)) (inject_Z (2 ^ (e - ex)))
              (inject_Z N) (inject_Z D) (Qpower 2 ex) (Qpower 2 e)
              (pow2_pos ex) HD HP Hm (pow2_split e ex He) H1 H2) as [Hc Hv].
  unfold rel_close, Binary64.to_Q. cbv zeta.
  destruct s; unfold signed.
  - assert (E : (- (inject_Z (Zpos m) * Qpower 2 e)
                 - - (inject_Z N / inject_Z D * Qpower 2 ex)
                 == - (inject_Z (Zpos m) * Qpower 2 e
                       - inject_Z N / inject_Z D * Qpower 2 ex))%Q) by ring.
    rewrite E, !Qabs_opp, (Qabs_pos _ Hv). exact Hc.
  - rewrite (Qabs_pos _ Hv). exact Hc.
Qed.

Lemma rel_close_eq v x x' : (x == x')%Q -> rel_close v x -> rel_close v x'.
Proof. unfold rel_close. intros E H. now rewrite <- E. Qed.

Lemma iter_xO_pow p q : Zpos (Pos.iter xO p q) = Zpos p * 2 ^ Zpos q.
Proof.
  revert p. induction q as [|q IH] using Pos.peano_ind; intros p.
  - simpl. lia.
  - rewrite Pos.iter_succ, Pos2Z.inj_succ, Z.pow_succ_r by lia.
    change (Zpos (Pos.iter xO p q)~0) with (2 * Zpos (Pos.iter xO p q)).
    rewrite IH. ring.
Qed.

Lemma Zdigits2_range m a b :
  0 <= a -> 2 ^ a <= m < 2 ^ b -> a < Zdigits2 m <= b.
Proof.
  intros Ha [Hlo Hhi].
  assert (Hm : 0 < m) by (pose proof (Z.pow_pos_nonneg 2 a); lia).
  destruct m as [|p|p]; try lia. cbn [Zdigits2].
  pose proof (digits2_pos_bounds p) as [Hl Hh].
  set (c := Zpos (digits2_pos p)) in *.
  assert (Hc : 0 < c) by (subst c; lia).
  split.
  - destruct (Z.lt_ge_cases a c) as [H|H]; [exact H|exfalso].
    assert (2 ^ c <= 2 ^ a) by (apply Z.pow_le_mono_r; lia). lia.
  - destruct (Z.le_gt_cases c b) as [H|H]; [exact H|exfalso].
    assert (2 ^ b <= 2 ^ (c - 1)) by (apply Z.pow_le_mono_r; lia). lia.
Qed.

Lemma binary_round_spec sx mx ex :
  let d := Zpos (digits2_pos mx) in
  -1074 <= d + ex - 53 -> d + ex <= 1023 ->
  exists m e,
    binary_round 53 1024 sx mx ex = S754_finite sx m e
    /\ d + ex - 53 <= e <= d + ex - 52
    /\ 2 ^ 52 <= Zpos m < 2 ^ 53
    /\ rel_close (Binary64.to_Q (S754_finite sx m e))
                 (signed sx (inject_Z (Zpos mx) * Qpower 2 ex)).
Proof.
  intros d Hlo Hhi. unfold binary_round.
  change (Zpos (digits2_pos mx)) with d.
  rewrite fexp_normal by lia. unfold shl_align.
  pose proof (digits2_pos_bounds mx) as Hdig. fold d in Hdig.
  assert (Hd0 : 0 < d) by (unfold d; lia).
  assert (Ed : Zdigits2 (Zpos mx) = d) by reflexivity.
  clearbody d.
  destruct (d + ex - 53 - ex) as [|q|q] eqn:Eq.
  - (* exactly 53 digits *)
    destruct (binary_round_aux_spec sx (Zpos mx) ex loc_Exact (Zpos mx) 1)
      as (m & e & Hr & He & Hm & Habs); try (rewrite Ed; lia); try lia.
    { unfold brackets. cbn. lia. }
    rewrite Ed in He.
    exists m, e. split; [exact Hr|]. split; [lia|]. split; [exact Hm|].
    eapply rel_close_eq; [|apply (rel_close_of_integers sx m e ex (Zpos mx) 1);
                           try lia; exact Habs].
    destruct sx; unfold signed; field.
  - (* more than 53 digits *)
    destruct (binary_round_aux_spec sx (Zpos mx) ex loc_Exact (Zpos mx) 1)
      as (m & e & Hr & He & Hm & Habs); try (rewrite Ed; lia); try lia.
    { unfold brackets. cbn. lia. }
    rewrite Ed in He.
    exists m, e. split; [exact Hr|]. split; [lia|]. split; [exact Hm|].
    eapply rel_close_eq; [|apply (rel_close_of_integers sx m e ex (Zpos mx) 1);
                           try lia; exact Habs].
    destruct sx; unfold signed; field.
  - (* fewer than 53 digits: the mantissa is shifted left first *)
    assert (Hq : Zpos q = 53 - d) by lia.
    pose proof (iter_xO_pow mx q) as Hshift.
    set (mz := Pos.iter xO mx q) in *. clearbody mz.
    assert (HP : 0 < 2 ^ Zpos q) by (apply Z.pow_pos_nonneg; lia).
    assert (Hdz : Zdigits2 (Zpos mz) = 53).
    { apply Zdigits2_unique; [lia|]. rewrite Hshift.
      replace 53 with (d + Zpos q) at 2 by lia.
      replace (53 - 1) with (d - 1 + Zpos q) by lia.
      rewrite (Z.pow_add_r 2 (d - 1) (Zpos q)) by lia.
      rewrite (Z.pow_add_r 2 d (Zpos q)) by lia.
      revert Hdig HP. generalize (2 ^ (d - 1)) (2 ^ d) (2 ^ Zpos q). nia. }
    destruct (binary_round_aux_spec sx (Zpos mz) (d + ex - 53) loc_Exact
                                    (Zpos mz) 1)
      as (m & e & Hr & He & Hm & Habs); try (rewrite Hdz; lia); try lia.
    { unfold brackets. cbn. lia. }
    rewrite Hdz in He.
    exists m, e. split; [exact Hr|]. split; [lia|]. split; [exact Hm|].
    eapply rel_close_eq;
      [|apply (rel_close_of_integers sx m e (d + ex - 53) (Zpos mz) 1);
        try lia; exact Habs].
    rewrite Hshift, inject_Z_mult.
    pose proof (pow2_split ex (d + ex - 53) ltac:(lia)) as Hsp.
    replace (ex - (d + ex - 53)) with (Zpos q) in Hsp by lia.
    destruct sx; unfold signed; rewrite Hsp; field.
Qed.

Lemma of_Z_spec z :
  0 < z < U64.modulus ->
  exists m e,
    Binary64.of_Z z = S754_finite false m e
    /\ 2 ^ 52 <= Zpos m < 2 ^ 53 /\ -52 <= e <= 12
    /\ rel_close (Binary64.to_Q (Binary64.of_Z z)) (inject_Z z).
Proof.
  intros [Hz0 Hz1]. destruct z as [|p|p]; try lia.
  unfold Binary64.of_Z, binary_normalize.
  destruct (Zdigits2_range (Zpos p) 0 64 ltac:(lia)) as [Hd0 Hd1].
  { change (2 ^ 0) with 1. change (2 ^ 64) with U64.modulus. lia. }
  cbn [Zdigits2] in Hd0, Hd1.
  destruct (binary_round_spec false p 0) as (m & e & Hr & He & Hm & Hc);
    try lia.
  exists m, e. unfold Binary64.prec, Binary64.emax. rewrite Hr.
  split; [reflexivity|]. split; [exact Hm|]. split; [lia|].
  eapply rel_close_eq; [|exact Hc]. unfold signed. cbn [Qpower]. ring.
Qed.

Lemma new_location_brackets N D q r :
  0 < D -> 0 <= r < D -> N = q * D + r ->
  brackets N D (shr_record_of_loc q (new_location D r)).
Proof.
  intros HD Hr HN.
  unfold new_location, new_location_even, new_location_odd.
  destruct (Z.even D) eqn:E.
  - destruct (Z.eqb_spec r 0) as [Hr0|Hr0]; unfold brackets.
    + cbn [shr_record_of_loc shr_m shr_r shr_s]. lia.
    + destruct (Z.compare_spec (2 * r) D);
        cbn [shr_record_of_loc shr_m shr_r shr_s]; nia.
  - assert (Hodd : Z.odd D = true) by (now rewrite <- Z.negb_even, E).
    apply Z.odd_spec in Hodd. destruct Hodd as [k Hk].
    destruct (Z.eqb_spec r 0) as [Hr0|Hr0]; unfold brackets.
    + cbn [shr_record_of_loc shr_m shr_r shr_s]. lia.
    + destruct (Z.compare_spec (2 * r + 1) D);
        cbn [shr_record_of_loc shr_m shr_r shr_s]; nia.
Qed.

Lemma pow2_add a b : (Qpower 2 (a + b) == Qpower 2 a * Qpower 2 b)%Q.
Proof. apply Qpower_plus. discriminate. Qed.

Lemma pow2_sub a b : (Qpower 2 (a - b) == Qpower 2 a / Qpower 2 b)%Q.
Proof.
  unfold Z.sub. rewrite pow2_add, Qpower_opp. reflexivity.
Qed.

Lemma div_spec ma ea mb eb :
  2 ^ 52 <= Zpos ma < 2 ^ 53 -> 2 ^ 52 <= Zpos mb < 2 ^ 53 ->
  -1021 <= ea - eb <= 1021 ->
  exists m e,
    Binary64.div (S754_finite false ma ea) (S754_finite false mb eb)
    = S754_finite false m e
    /\ 2 ^ 52 <= Zpos m < 2 ^ 53
    /\ ea - eb - 53 <= e <= ea - eb - 51
    /\ rel_close (Binary64.to_Q (S754_finite false m e))
                 (Binary64.to_Q (S754_finite false ma ea)
                  / Binary64.to_Q (S754_finite false mb eb)).
Proof.
  intros Hma Hmb He.
  unfold Binary64.div, SFdiv, SFdiv_core_binary.
  rewrite (Zdigits2_unique (Zpos ma) 53), (Zdigits2_unique (Zpos mb) 53)
    by (try lia; exact Hma || exact Hmb).
  unfold Binary64.prec, Binary64.emax.
  rewrite fexp_normal by lia.
  replace (Z.min (53 + ea - (53 + eb) - 53) (ea - eb)) with (ea - eb - 53) by lia.
  replace (ea - eb - (ea - eb - 53)) with 53 by lia.
  cbv iota beta.
  pose proof (Z_div_mod (Z.shiftl (Zpos ma) 53) (Zpos mb) ltac:(lia)) as Hdm.
  destruct (Z.div_eucl (Z.shiftl (Zpos ma) 53) (Zpos mb)) as [q r].
  destruct Hdm as [Hq Hr].
  rewrite Z.shiftl_mul_pow2 in Hq by lia.
  change (2 ^ 52) with 4503599627370496 in *.
  change (2 ^ 53) with 9007199254740992 in *.
  assert (Hqr : 4503599627370496 <= q < 18014398509481984) by nia.
  destruct (Zdigits2_range q 52 54 ltac:(lia)) as [Hd0 Hd1].
  { change (2 ^ 52) with 4503599627370496.
    change (2 ^ 54) with 18014398509481984. exact Hqr. }
  destruct (binary_round_aux_spec (xorb false false) q (ea - eb - 53)
              (new_location (Zpos mb) r)
              (Zpos ma * 9007199254740992) (Zpos mb))
    as (m & e & Hres & Hex & Hm & Habs); try lia.
  { apply new_location_brackets; lia. }
  exists m, e. split; [exact Hres|].
  change (2 ^ 52) with 4503599627370496 in Hm.
  change (2 ^ 53) with 9007199254740992 in Hm.
  split; [exact Hm|]. split; [lia|].
  eapply rel_close_eq;
    [|apply (rel_close_of_integers false m e (ea - eb - 53)
               (Zpos ma * 9007199254740992) (Zpos mb)); try lia; exact Habs].
  unfold signed, Binary64.to_Q. cbv zeta.
  rewrite inject_Z_mult.
  replace (ea - eb - 53) with (ea - (eb + 53)) by lia.
  rewrite pow2_sub, pow2_add.
  change (Qpower 2 53) with (inject_Z 9007199254740992).
  pose proof (pow2_pos eb) as Hpb.
  assert (Hmbq : (0 < inject_Z (Zpos mb))%Q) by reflexivity.
  field. repeat split; apply Q_nonzero_of_pos; try assumption; reflexivity.
Qed.

Lemma mul_spec ma ea mb eb :
  2 ^ 52 <= Zpos ma < 2 ^ 53 -> 2 ^ 52 <= Zpos mb < 2 ^ 53 ->
  -1126 <= ea + eb <= 917 ->
  exists m e,
    Binary64.mul (S754_finite false ma ea) (S754_finite false mb eb)
    = S754_finite false m e
    /\ 2 ^ 52 <= Zpos m < 2 ^ 53
    /\ ea + eb + 52 <= e <= ea + eb + 54
    /\ rel_close (Binary64.to_Q (S754_finite false m e))
                 (Binary64.to_Q (S754_finite false ma ea)
                  * Binary64.to_Q (S754_finite false mb eb)).
Proof.
  intros Hma Hmb He.
  unfold Binary64.mul, SFmul, Binary64.prec, Binary64.emax.
  change (2 ^ 52) with 4503599627370496 in *.
  change (2 ^ 53) with 9007199254740992 in *.
  assert (Hp : 2 ^ 104 <= Zpos (ma * mb) < 2 ^ 106).
  { rewrite Pos2Z.inj_mul.
    change (2 ^ 104) with (4503599627370496 * 4503599627370496).
    change (2 ^ 106) with (9007199254740992 * 9007199254740992). nia. }
  destruct (Zdigits2_range _ 104 106 ltac:(lia) Hp) as [Hd0 Hd1].
  destruct (binary_round_aux_spec (xorb false false) (Zpos (ma * mb))
              (ea + eb) loc_Exact (Zpos (ma * mb)) 1)
    as (m & e & Hres & Hex & Hm & Habs); try lia.
  { unfold brackets. cbn [shr_record_of_loc shr_m shr_r shr_s]. lia. }
  exists m, e. split; [exact Hres|].
  change (2 ^ 52) with 4503599627370496 in Hm.
  change (2 ^ 53) with 9007199254740992 in Hm.
  split; [exact Hm|]. split; [lia|].
  eapply rel_close_eq;
    [|apply (rel_close_of_integers false m e (ea + eb) (Zpos (ma * mb)) 1);
      try lia; exact Habs].
  unfold signed, Binary64.to_Q. cbv zeta.
  rewrite Pos2Z.inj_mul, inject_Z_mult, pow2_add. field.
Qed.

Lemma shl_align_fst m e ez :
  ez <= e -> Zpos (fst (shl_align m e ez)) = Zpos m * 2 ^ (e - ez).
Proof.
  intros H. unfold shl_align.
  destruct (ez - e) as [|q|q] eqn:E; try lia; cbn [fst].
  - replace (e - ez) with 0 by lia. simpl. lia.
  - rewrite iter_xO_pow. f_equal. f_equal. lia.
Qed.

Lemma rel_close_zero x : (x == 0)%Q -> rel_close 0 x.
Proof.
  intros E. unfold rel_close. rewrite E. cbn. discriminate.
Qed.

Lemma sub_spec ma ea mb eb :
  2 ^ 52 <= Zpos ma < 2 ^ 53 -> 2 ^ 52 <= Zpos mb < 2 ^ 53 ->
  -1020 <= ea <= 960 -> -1020 <= eb <= 960 ->
  let r := Binary64.sub (S754_finite false ma ea) (S754_finite false mb eb) in
  Binary64.is_finite r = true
  /\ rel_close (Binary64.to_Q r)
               (Binary64.to_Q (S754_finite false ma ea)
                - Binary64.to_Q (S754_finite false mb eb)).
Proof.
  intros Hma Hmb Hea Heb r. subst r.
  unfold Binary64.sub, SFsub, Binary64.prec, Binary64.emax, cond_Zopp.
  set (ez := Z.min ea eb).
  assert (Hez : ez <= ea /\ ez <= eb /\ -1020 <= ez) by (subst ez; lia).
  clearbody ez.
  rewrite !shl_align_fst by lia.
  assert (Hpa : 0 < 2 ^ (ea - ez)) by (apply Z.pow_pos_nonneg; lia).
  assert (Hpb : 0 < 2 ^ (eb - ez)) by (apply Z.pow_pos_nonneg; lia).
  pose proof (pow2_split ea ez ltac:(lia)) as Hsa.
  pose proof (pow2_split eb ez ltac:(lia)) as Hsb.
  set (emx := Z.max ea eb).
  assert (Hemx : ea <= emx /\ eb <= emx /\ emx <= 960) by (subst emx; lia).
  clearbody emx.
  assert (Hbound : Zpos ma * 2 ^ (ea - ez) < 2 ^ (53 + emx - ez)
                   /\ Zpos mb * 2 ^ (eb - ez) < 2 ^ (53 + emx - ez)).
  { replace (53 + emx - ez) with (53 + (emx - ea) + (ea - ez)) at 1 by lia.
    replace (53 + emx - ez) with (53 + (emx - eb) + (eb - ez)) by lia.
    rewrite !Z.pow_add_r by lia.
    assert (0 < 2 ^ (emx - ea)) by (apply Z.pow_pos_nonneg; lia).
    assert (0 < 2 ^ (emx - eb)) by (apply Z.pow_pos_nonneg; lia).
    revert H H0 Hpa Hpb Hma Hmb.
    generalize (2 ^ (emx - ea)) (2 ^ (emx - eb)) (2 ^ (ea - ez)) (2 ^ (eb - ez)).
    intros. split; nia. }
  unfold Binary64.to_Q at 2 3. cbv zeta.
  destruct (Zpos ma * 2 ^ (ea - ez) - Zpos mb * 2 ^ (eb - ez)) as [|p|p] eqn:Ediff;
    cbn [binary_normalize].
  - split; [reflexivity|]. apply rel_close_zero.
    assert (E : Zpos ma * 2 ^ (ea - ez) = Zpos mb * 2 ^ (eb - ez)) by lia.
    rewrite Hsa, Hsb.
    assert (Eq : (inject_Z (Zpos ma) * inject_Z (2 ^ (ea - ez))
                  == inject_Z (Zpos mb) * inject_Z (2 ^ (eb - ez)))%Q).
    { rewrite <- !inject_Z_mult. now rewrite E. }
    rewrite !Qmult_assoc, Eq. ring.
  - destruct (Zdigits2_range (Zpos p) 0 (53 + emx - ez) ltac:(lia)) as [Hd0 Hd1].
    { change (2 ^ 0) with 1. lia. }
    cbn [Zdigits2] in Hd0, Hd1.
    destruct (binary_round_spec false p ez) as (m & e & Hr & He & Hm & Hc);
      try lia.
    rewrite Hr. split; [reflexivity|].
    eapply rel_close_eq; [|exact Hc]. unfold signed.
    rewrite Hsa, Hsb.
    assert (E : Zpos p = Zpos ma * 2 ^ (ea - ez) - Zpos mb * 2 ^ (eb - ez)) by lia.
    rewrite E. unfold Z.sub.
    rewrite inject_Z_plus, inject_Z_opp, !inject_Z_mult. ring.
  - destruct (Zdigits2_range (Zpos p) 0 (53 + emx - ez) ltac:(lia)) as [Hd0 Hd1].
    { change (2 ^ 0) with 1. lia. }
    cbn [Zdigits2] in Hd0, Hd1.
    destruct (binary_round_spec true p ez) as (m & e & Hr & He & Hm & Hc);
      try lia.
    rewrite Hr. split; [reflexivity|].
    eapply rel_close_eq; [|exact Hc]. unfold signed.
    rewrite Hsa, Hsb.
    assert (E : Zpos p = Zpos mb * 2 ^ (eb - ez) - Zpos ma * 2 ^ (ea - ez)) by lia.
    rewrite E. unfold Z.sub.
    rewrite inject_Z_plus, inject_Z_opp, !inject_Z_mult. ring.
Qed.

Lemma of_Z_100 : Binary64.of_Z 100 = hundred.
Proof. reflexivity. Qed.

Lemma of_Z_0 : Binary64.of_Z 0 = S754_zero false.
Proof. reflexivity. Qed.

Lemma new_location_exact D : new_location D 0 = loc_Exact.
Proof.
  unfold new_location, new_location_even, new_location_odd.
  now destruct (Z.even D).
Qed.

Lemma div_self m e :
  Binary64.div (S754_finite false m e) (S754_finite false m e) = one.
Proof.
  unfold Binary64.div, SFdiv, SFdiv_core_binary.
  rewrite !Z.sub_diag.
  change (Z.min (fexp Binary64.prec Binary64.emax 0) 0) with (-53).
  change (0 - -53) with 53. cbv iota beta.
  pose proof (Z_div_mod (Z.shiftl (Zpos m) 53) (Zpos m) ltac:(lia)) as Hdm.
  destruct (Z.div_eucl (Z.shiftl (Zpos m) 53) (Zpos m)) as [q r].
  destruct Hdm as [Hq Hr].
  rewrite Z.shiftl_mul_pow2 in Hq by lia.
  change (2 ^ 53) with 9007199254740992 in Hq.
  assert (Eq : q = 9007199254740992).
  { rewrite (Z.div_unique _ _ q r (or_introl Hr) Hq).
    rewrite Z.mul_comm. apply Z.div_mul. lia. }
  subst q. assert (r = 0) as -> by lia.
  rewrite new_location_exact. reflexivity.
Qed.

Lemma cpuUsage_idle_zero sys :
  0 < sys < U64.modulus -> cpuUsage_of_deltas 0 sys = hundred.
Proof.
  intros Hs. destruct (of_Z_spec sys Hs) as (m & e & E & _).
  unfold cpuUsage_of_deltas. rewrite E. reflexivity.
Qed.

Lemma cpuUsage_idle_all sys :
  0 < sys < U64.modulus -> cpuUsage_of_deltas sys sys = S754_zero false.
Proof.
  intros Hs. destruct (of_Z_spec sys Hs) as (m & e & E & _).
  unfold cpuUsage_of_deltas. rewrite E, div_self. reflexivity.
Qed.

Lemma cpuUsage_no_interval idle :
  0 <= idle < U64.modulus ->
  cpuUsage_of_deltas idle 0
  = if idle =? 0 then S754_nan else S754_infinity true.
Proof.
  intros Hi. destruct (Z.eqb_spec idle 0) as [->|Hne]; [reflexivity|].
  destruct (of_Z_spec idle ltac:(lia)) as (m & e & E & _).
  unfold cpuUsage_of_deltas. rewrite E. reflexivity.
Qed.

Lemma rel_close_refl v : rel_close v v.
Proof.
  unfold rel_close.
  assert (E : (v - v == 0)%Q) by ring. rewrite E. cbn [Qabs Qnum Z.abs].
  apply Qmult_le_0_compat; [discriminate|apply Qabs_nonneg].
Qed.

Lemma cpuUsage_rounding idle sys :
  0 <= idle < U64.modulus -> 0 < sys < U64.modulus ->
  Binary64.is_finite (cpuUsage_of_deltas idle sys) = true
  /\ exists a b q p : Q,
      (0 <= a /\ 0 < b /\ 0 <= q /\ 0 <= p)%Q
      /\ rel_close a (inject_Z idle)
      /\ rel_close b (inject_Z sys)
      /\ rel_close q (a / b)
      /\ rel_close p (q * 100)
      /\ rel_close (Binary64.to_Q (cpuUsage_of_deltas idle sys)) (100 - p).
Proof.
  intros Hi Hs.
  destruct (Z.eq_dec idle 0) as [->|Hne].
  - rewrite (cpuUsage_idle_zero sys Hs). split; [reflexivity|].
    destruct (of_Z_spec sys Hs) as (mb & eb & Eb & Hmb & Heb & Hcb).
    exists 0%Q, (Binary64.to_Q (Binary64.of_Z sys)), 0%Q, 0%Q.
    repeat split; try apply Qle_refl.
    + rewrite Eb. unfold Binary64.to_Q. cbv zeta.
      apply Qmult_lt_0_compat; [reflexivity|apply pow2_pos].
    + apply rel_close_refl.
    + exact Hcb.
    + apply rel_close_zero. unfold Qdiv. ring.
    + apply rel_close_zero. ring.
    + apply rel_close_eq with (x := Binary64.to_Q hundred);
        [|apply rel_close_refl].
      vm_compute. reflexivity.
  - destruct (of_Z_spec idle ltac:(lia)) as (ma & ea & Ea & Hma & Hea & Hca).
    destruct (of_Z_spec sys Hs) as (mb & eb & Eb & Hmb & Heb & Hcb).
    destruct (div_spec ma ea mb eb Hma Hmb ltac:(lia))
      as (mq & eq & Eq & Hmq & Heq & Hcq).
    destruct (mul_spec mq eq 7036874417766400 (-46) Hmq ltac:(split; reflexivity || discriminate)
                ltac:(lia))
      as (mp & ep & Ep & Hmp & Hep & Hcp).
    destruct (sub_spec 7036874417766400 (-46) mp ep
                ltac:(split; reflexivity || discriminate) Hmp ltac:(lia) ltac:(lia))
      as [Hfin Hcr].
    unfold cpuUsage_of_deltas.
    rewrite Ea, Eb, of_Z_100. unfold hundred. rewrite Eq, Ep.
    split; [exact Hfin|].
    exists (Binary64.to_Q (S754_finite false ma ea)),
           (Binary64.to_Q (S754_finite false mb eb)),
           (Binary64.to_Q (S754_finite false mq eq)),
           (Binary64.to_Q (S754_finite false mp ep)).
    assert (Hpos : forall m e, (0 < Binary64.to_Q (S754_finite false m e))%Q).
    { intros m e. unfold Binary64.to_Q. cbv zeta.
      apply Qmult_lt_0_compat; [reflexivity|apply pow2_pos]. }
    split; [repeat split; try apply Qlt_le_weak; apply Hpos|].
    rewrite Ea in Hca. rewrite Eb in Hcb.
    split; [exact Hca|]. split; [exact Hcb|]. split; [exact Hcq|].
    split.
    + eapply rel_close_eq; [|exact Hcp].
      apply Qmult_comp; [reflexivity|]. vm_compute. reflexivity.
    + eapply rel_close_eq; [|exact Hcr].
      apply Qplus_comp; [|reflexivity]. vm_compute. reflexivity.
Qed.

Section ErrorBound.

Local Open Scope Q_scope.

Lemma rel_close_bounds v x :
  0 <= v -> rel_close v x ->
  (1 - (1 # 9007199254740992)) * v <= x <= (1 + (1 # 9007199254740992)) * v.
Proof.
  unfold rel_close. intros Hv H. rewrite (Qabs_pos v Hv) in H.
  apply Qabs_Qle_condition in H.
  change (Qpower 2 (-53)) with (1 # 9007199254740992) in H.
  destruct H as [H1 H2]. split; lra.
Qed.

Lemma utilisation_error (I S a b q p R : Q) :
  0 <= I -> 0 < S -> 0 <= a -> 0 < b -> 0 <= q -> 0 <= p ->
  rel_close a I -> rel_close b S -> rel_close q (a / b) ->
  rel_close p (q * 100) -> rel_close R (100 - p) ->
  Qabs (R - 100 * (1 - I / S)) <= Qpower 2 (-50) * (100 + 100 * (I / S)).
Proof.
  intros HI HS Ha Hb Hq Hp H1 H2 H3 H4 H5.
  apply (rel_close_bounds a I Ha) in H1.
  apply (rel_close_bounds b S (Qlt_le_weak _ _ Hb)) in H2.
  apply (rel_close_bounds q (a / b) Hq) in H3.
  apply (rel_close_bounds p (q * 100) Hp) in H4.
  pose proof (Q_nonzero_of_pos b Hb) as Hbn.
  pose proof (Q_nonzero_of_pos S HS) as HSn.
  set (u := 1 # 9007199254740992) in *.
  assert (Ec : a / b * b == a) by (field; exact Hbn).
  set (c := a / b) in *. clearbody c.
  set (t := I / S).
  assert (Et : t * S == I) by (subst t; field; exact HSn).
  assert (Ht : 0 <= t).
  { subst t. apply Qle_shift_div_l; [exact HS|]. now rewrite Qmult_0_l. }
  clearbody t.
  (* the quotient [q] against [t] *)
  assert (Hx1 : (1 - u) * (q * b) <= a <= (1 + u) * (q * b)).
  { destruct H3 as [H3a H3b]. subst u. split; nra. }
  assert (Hx2 : (1 - u) * (q * b) <= q * S <= (1 + u) * (q * b)).
  { destruct H2 as [H2a H2b]. subst u. split; nra. }
  assert (Hqt : (1 - u) * (1 - u) * q * S <= (1 + u) * t * S
                /\ (1 - u) * t * S <= (1 + u) * (1 + u) * q * S).
  { subst u. split; nra. }
  assert (Hqt' : (1 - u) * (1 - u) * q <= (1 + u) * t
                 /\ (1 - u) * t <= (1 + u) * (1 + u) * q).
  { destruct Hqt as [Ha1 Ha2]. split.
    - apply (Qmult_le_r _ _ S HS). lra.
    - apply (Qmult_le_r _ _ S HS). lra. }
  clear Hx1 Hx2 Hqt Ec Et H1 H2 H3.
  subst u. destruct Hqt' as [G1 G2]. destruct H4 as [G3 G4].
  unfold rel_close in H5.
  change (Qpower 2 (-53)) with (1 # 9007199254740992) in H5.
  change (Qpower 2 (-50)) with (1 # 1125899906842624).
  apply Qabs_Qle_condition.
  apply Qabs_Qle_condition in H5. destruct H5 as [G5 G6].
  revert G5 G6. apply Qabs_case; intros HR G5 G6; split; lra.
Qed.

End ErrorBound.

(** ** The processor sample *)

Lemma cpu_usage_printed sys size fresh :
  allocate sys size = Some fresh ->
  every_thread_starts sys = true ->
  exists w,
    In (Out (MsgCpuUsage (cpuUsage (system_times sys 10000)
                                   (system_times sys 11000))), w)
       (log (final sys size)).
Proof.
  intros Ha Hall. exists (w_sampled sys size fresh).
  unfold final. rewrite (run_success sys size fresh Ha Hall). cbn [snd log].
  assert (H0 : clock (w_held sys size fresh) = 10000).
  { unfold w_held. now rewrite w_loaded_eq. }
  assert (H1 : clock (w_sampled sys size fresh) = 11000).
  { unfold w_sampled, advance. now rewrite H0. }
  unfold success_log, sample_log. rewrite H0, H1.
  apply in_or_app. right. right. right. right.
  apply in_or_app. left. apply in_or_app. right.
  cbn [In]. tauto.
Qed.

(** C2, as the code has it. When the system time has not advanced
    between the two snapshots, the division is carried out all the same
    and its result is printed as the utilisation: not a number when the
    idle time has not advanced either, minus infinity when it has. The
    line printed is the same [MsgCpuUsage] line as in every other run
    that gets as far, with its block and all its threads. *)
Theorem zero_interval_divides :
  (forall s1 s2,
      systemTimeDelta s1 s2 = 0 ->
      cpuUsage s1 s2
      = if idleTimeDelta s1 s2 =? 0 then S754_nan else S754_infinity true)
  /\ (forall sys size fresh,
         allocate sys size = Some fresh ->
         every_thread_starts sys = true ->
         exists w,
           In (Out (MsgCpuUsage (cpuUsage (system_times sys 10000)
                                          (system_times sys 11000))), w)
              (log (final sys size))).
Proof.
  split.
  - intros s1 s2 Hs. unfold cpuUsage. rewrite Hs.
    apply cpuUsage_no_interval. apply wrap_in_range.
  - apply cpu_usage_printed.
Qed.

Lemma zero_interval_divides_witness :
  cpuUsage (snapshot_of 5 7 9) (snapshot_of 6 7 9) = S754_infinity true.
Proof.
  destruct zero_interval_divides as [H _].
  apply (H (snapshot_of 5 7 9) (snapshot_of 6 7 9)). reflexivity.
Defined.

(** C2, as the specification has it, fails: with two equal snapshots the
    system time has not advanced, and the program prints a utilisation
    that is not a number. *)
Lemma zero_interval_prints_nan :
  systemTimeDelta (snapshot_of 5 7 9) (snapshot_of 5 7 9) = 0
  /\ cpuUsage (snapshot_of 5 7 9) (snapshot_of 5 7 9) = S754_nan
  /\ Binary64.is_nan (cpuUsage (snapshot_of 5 7 9) (snapshot_of 5 7 9)) = true
  /\ In (Out (MsgCpuUsage S754_nan))
        (map fst (log (final os_frozen_clock 4096))).
Proof.
  split; [reflexivity|]. split; [reflexivity|]. split; [reflexivity|].
  vm_compute. repeat (first [left; reflexivity | right]).
Qed.

(** C3, as the code has it. For two snapshots between which the system
    time has advanced, with [systemDelta] the advance of kernel plus
    user time and [idleDelta] the advance of idle time, both taken in 64
    bits, the utilisation computed is a finite [double] that differs
    from [100 * (1 - idleDelta / systemDelta)] by at most
    [2 ^ -50 * (100 + 100 * idleDelta / systemDelta)], the rounding of
    the two conversions, the division, the multiplication and the
    subtraction. It is exactly 100.0 when [idleDelta = 0], as for
    [idleDelta = 0] and [systemDelta = 100], and exactly 0.0 when
    [idleDelta = systemDelta]. *)
Theorem cpu_usage_formula s1 s2 :
  systemTimeDelta s1 s2 <> 0 ->
  let idleDelta := idleTimeDelta s1 s2 in
  let systemDelta := systemTimeDelta s1 s2 in
  systemDelta
  = U64.sub (U64.add (QuadPart (kernelTime s2)) (QuadPart (userTime s2)))
            (U64.add (QuadPart (kernelTime s1)) (QuadPart (userTime s1)))
  /\ idleDelta = U64.sub (QuadPart (idleTime s2)) (QuadPart (idleTime s1))
  /\ Binary64.is_finite (cpuUsage s1 s2) = true
  /\ (Qabs (Binary64.to_Q (cpuUsage s1 s2)
            - 100 * (1 - inject_Z idleDelta / inject_Z systemDelta))
      <= Qpower 2 (-50)
         * (100 + 100 * (inject_Z idleDelta / inject_Z systemDelta)))%Q
  /\ (idleDelta = 0 -> cpuUsage s1 s2 = hundred)
  /\ (idleDelta = systemDelta -> cpuUsage s1 s2 = S754_zero false)
  /\ cpuUsage_of_deltas 0 100 = hundred
  /\ (Binary64.to_Q hundred == 100)%Q.
Proof.
  intros Hne idleDelta systemDelta.
  assert (Hi : 0 <= idleDelta < U64.modulus) by apply wrap_in_range.
  assert (Hs : 0 < systemDelta < U64.modulus).
  { pose proof (wrap_in_range (systemTime s2 - systemTime s1)) as H.
    unfold U64.in_range in H. fold (U64.sub (systemTime s2) (systemTime s1)) in H.
    fold (systemTimeDelta s1 s2) in H. subst systemDelta. lia. }
  split; [reflexivity|]. split; [reflexivity|].
  destruct (cpuUsage_rounding idleDelta systemDelta Hi Hs)
    as (Hfin & a & b & q & p & (Ha & Hb & Hq & Hp) & H1 & H2 & H3 & H4 & H5).
  split; [exact Hfin|]. split.
  - apply (utilisation_error (inject_Z idleDelta) (inject_Z systemDelta)
                             a b q p); try assumption.
    + change 0%Q with (inject_Z 0). rewrite <- Zle_Qle. lia.
    + change 0%Q with (inject_Z 0). rewrite <- Zlt_Qlt. lia.
  - split; [|split; [|split]].
    + intros E. unfold cpuUsage. fold idleDelta systemDelta. rewrite E.
      now apply cpuUsage_idle_zero.
    + intros E. unfold cpuUsage. fold idleDelta systemDelta. rewrite E.
      now apply cpuUsage_idle_all.
    + reflexivity.
    + vm_compute. reflexivity.
Qed.

Lemma cpu_usage_formula_witness :
  cpuUsage (snapshot_of 0 0 0) (snapshot_of 100 40 60) = S754_zero false
  /\ cpuUsage (snapshot_of 7 0 0) (snapshot_of 7 40 60) = hundred.
Proof.
  split.
  - destruct (cpu_usage_formula (snapshot_of 0 0 0) (snapshot_of 100 40 60))
      as (_ & _ & _ & _ & _ & H & _).
    + vm_compute. discriminate.
    + apply H. reflexivity.
  - destruct (cpu_usage_formula (snapshot_of 7 0 0) (snapshot_of 7 40 60))
      as (_ & _ & _ & _ & H & _).
    + vm_compute. discriminate.
    + apply H. reflexivity.
Defined.

(** C3, with the equality exact, fails. Over one second on three
    processors the system time advances by 30000000 ticks; when the
    idle time advances by 10000000 of them, the [double] computed is
    [4691249611844267 * 2 ^ -46], and not the number
    [100 * (1 - 10000000 / 30000000)], which no [double] is. It fails
    also where the number is a [double]: with 55 ticks idle out of 100
    the result is [6333186975989759 * 2 ^ -47], just below 45. *)
Lemma cpu_usage_not_exact :
  idleTimeDelta (snapshot_of 0 0 0)
                (snapshot_of 10000000 10000000 20000000) = 10000000
  /\ systemTimeDelta (snapshot_of 0 0 0)
                     (snapshot_of 10000000 10000000 20000000) = 30000000
  /\ cpuUsage (snapshot_of 0 0 0) (snapshot_of 10000000 10000000 20000000)
     = S754_finite false 4691249611844267 (-46)
  /\ ~ (Binary64.to_Q (cpuUsage (snapshot_of 0 0 0)
                                (snapshot_of 10000000 10000000 20000000))
        == 100 * (1 - 10000000 / 30000000))%Q
  /\ cpuUsage (snapshot_of 0 0 0) (snapshot_of 55 40 60)
     = S754_finite false 6333186975989759 (-47)
  /\ ~ (Binary64.to_Q (cpuUsage (snapshot_of 0 0 0) (snapshot_of 55 40 60))
        == 100 * (1 - 55 / 100))%Q.
Proof.
  split; [reflexivity|]. split; [reflexivity|]. split; [reflexivity|].
  split; [intros H; vm_compute in H; discriminate|].
  split; [reflexivity|].
  intros H. vm_compute in H. discriminate.
Qed.

(* ------------------------------------------------------------------ *)
(** * Further properties of the code *)

(** ** is_prime: no division by zero *)

Lemma wrap_parity x : U64.wrap x mod 2 = x mod 2.
Proof.
  unfold U64.wrap. rewrite modulus_value.
  Z.div_mod_to_equations. lia.
Qed.

Lemma is_prime_loop_odd_candidate fuel num i :
  i mod 2 = 1 -> is_prime_loop fuel num i <> DivByZero.
Proof.
  revert i. induction fuel as [|fuel IH]; intros i Hodd; [discriminate|].
  cbn [is_prime_loop].
  destruct (U64.mul i i <=? num); [|discriminate].
  destruct (Z.eqb_spec i 0) as [->|_]; [discriminate|].
  destruct (num mod i =? 0); [discriminate|].
  assert (H2 : U64.add i 2 mod 2 = 1).
  { unfold U64.add. rewrite wrap_parity.
    clear - Hodd. Z.div_mod_to_equations. lia. }
  destruct (Z.eqb_spec (U64.add i 2) 0) as [E|_].
  { rewrite E in H2. discriminate. }
  destruct (num mod U64.add i 2 =? 0); [discriminate|].
  apply IH. unfold U64.add. rewrite wrap_parity.
  clear - Hodd. Z.div_mod_to_equations. lia.
Qed.

(** X1. [is_prime] never divides by zero, whatever its argument and
    however long it runs: [num % i] and [num % (i + 2)] are taken with
    odd [i] and [i + 2] only, also after [i] has wrapped around. So no
    pass of [cpu_stress2] does either. *)
Theorem is_prime_never_divides_by_zero fuel num :
  is_prime fuel num <> DivByZero
  /\ cpu_stress2_step fuel num <> DivByZero.
Proof.
  assert (H : is_prime fuel num <> DivByZero).
  { unfold is_prime.
    destruct (num <=? 1); [discriminate|].
    destruct ((num =? 2) || (num =? 3)); [discriminate|].
    destruct ((num mod 2 =? 0) || (num mod 3 =? 0)); [discriminate|].
    now apply is_prime_loop_odd_candidate. }
  split; [exact H|].
  unfold cpu_stress2_step.
  destruct (is_prime fuel num); try discriminate. contradiction.
Qed.

(** ** is_prime: the number of passes

    Below [4294967291 ^ 2] the guard [i * i <= num] is exact, and the
    loop is left at the square root of [num]. *)

Lemma loop_returns_sqrt n :
  0 <= n < 18446744030759878681 ->
  forall (k : nat) (i : Z),
    5 <= i <= 4294967291 -> i mod 6 = 5 ->
    Z.sqrt n - i < 6 * (Z.of_nat k - 1) -> (1 <= k)%nat ->
    exists b, is_prime_loop k n i = Done b.
Proof.
  intros Hn. induction k as [|k IH]; intros i Hi Hmod Hk Hk1; [lia|].
  cbn [is_prime_loop].
  assert (Hm : U64.mul i i = i * i).
  { unfold U64.mul. apply wrap_small. unfold U64.in_range.
    rewrite modulus_value. nia. }
  rewrite Hm.
  destruct (Z.leb_spec (i * i) n) as [Hg|Hg]; [|now exists true].
  assert (Hw2 : U64.add i 2 = i + 2).
  { unfold U64.add. apply wrap_small. unfold U64.in_range.
    rewrite modulus_value. lia. }
  assert (Hlt : i < 4294967291) by nia.
  assert (Hw6 : U64.add i 6 = i + 6).
  { unfold U64.add. apply wrap_small. unfold U64.in_range.
    rewrite modulus_value. lia. }
  rewrite Hw2, Hw6.
  destruct (Z.eqb_spec i 0); [lia|].
  destruct (n mod i =? 0); [now exists false|].
  destruct (Z.eqb_spec (i + 2) 0); [lia|].
  destruct (n mod (i + 2) =? 0); [now exists false|].
  assert (Hs : i <= Z.sqrt n) by (apply Z.sqrt_le_square; lia).
  apply IH.
  - clear - Hlt Hi Hmod. Z.div_mod_to_equations. lia.
  - replace (i + 6) with (i + 1 * 6) by lia. now rewrite Z.mod_add by lia.
  - lia.
  - lia.
Qed.

(** X2. For [n < 4294967291 ^ 2], [is_prime n] returns after at most
    [sqrt n / 6 + 2] evaluations of the loop guard. *)
Theorem is_prime_sqrt_passes n :
  U64.in_range n -> n < 18446744030759878681 ->
  exists b, is_prime (Z.to_nat (Z.sqrt n / 6) + 2) n = Done b.
Proof.
  intros [Hn0 Hn1] Hn. unfold is_prime.
  destruct (n <=? 1); [now exists false|].
  destruct ((n =? 2) || (n =? 3)); [now exists true|].
  destruct ((n mod 2 =? 0) || (n mod 3 =? 0)); [now exists false|].
  pose proof (Z.sqrt_nonneg n) as Hs.
  apply loop_returns_sqrt; try lia; try reflexivity.
  rewrite Nat2Z.inj_add, Z2Nat.id by (apply Z.div_pos; lia).
  change (Z.of_nat 2) with 2.
  revert Hs. generalize (Z.sqrt n). intros s Hs.
  Z.div_mod_to_equations. lia.
Qed.

Lemma is_prime_sqrt_passes_witness :
  exists b, is_prime (Z.to_nat (Z.sqrt 1000003 / 6) + 2) 1000003 = Done b.
Proof.
  apply is_prime_sqrt_passes.
  - unfold U64.in_range. rewrite modulus_value. lia.
  - lia.
Defined.

Lemma loop_true_needs_sqrt n :
  0 <= n < 18446744030759878681 ->
  forall (k : nat) (i : Z),
    5 <= i <= 4294967291 -> i mod 6 = 5 ->
    is_prime_loop k n i = Done true ->
    Z.sqrt n < i + 6 * (Z.of_nat k - 1).
Proof.
  intros Hn. induction k as [|k IH]; intros i Hi Hmod; [discriminate|].
  cbn [is_prime_loop].
  assert (Hm : U64.mul i i = i * i).
  { unfold U64.mul. apply wrap_small. unfold U64.in_range.
    rewrite modulus_value. nia. }
  rewrite Hm.
  destruct (Z.leb_spec (i * i) n) as [Hg|Hg].
  - assert (Hlt : i < 4294967291) by nia.
    assert (Hw6 : U64.add i 6 = i + 6).
    { unfold U64.add. apply wrap_small. unfold U64.in_range.
      rewrite modulus_value. lia. }
    rewrite Hw6.
    destruct (i =? 0); [discriminate|].
    destruct (n mod i =? 0); [discriminate|].
    destruct (U64.add i 2 =? 0); [discriminate|].
    destruct (n mod U64.add i 2 =? 0); [discriminate|].
    intros H. apply IH in H.
    + lia.
    + clear - Hlt Hi Hmod. Z.div_mod_to_equations. lia.
    + replace (i + 6) with (i + 1 * 6) by lia. now rewrite Z.mod_add by lia.
  - intros _.
    assert (Z.sqrt n < i) by (apply Z.sqrt_lt_square; lia). lia.
Qed.

(** X3. When [is_prime n] returns [true], for [25 <= n < 4294967291 ^ 2],
    the loop guard has been evaluated at least [(sqrt n - 5) / 6 + 2]
    times: no answer [true] comes sooner than the square root. *)
Theorem is_prime_true_needs_sqrt_passes fuel n :
  25 <= n < 18446744030759878681 ->
  is_prime fuel n = Done true ->
  (Z.to_nat ((Z.sqrt n - 5) / 6) + 2 <= fuel)%nat.
Proof.
  intros Hn. unfold is_prime.
  destruct (Z.leb_spec n 1); [lia|].
  destruct (Z.eqb_spec n 2); [lia|].
  destruct (Z.eqb_spec n 3); [lia|]. cbn [orb].
  destruct ((n mod 2 =? 0) || (n mod 3 =? 0)); [discriminate|].
  intros Hr. apply loop_true_needs_sqrt in Hr; try lia; try reflexivity.
  assert (Hs : 5 <= Z.sqrt n) by (apply Z.sqrt_le_square; lia).
  revert Hr Hs. generalize (Z.sqrt n). intros s Hr Hs.
  assert (E : (s - 5) / 6 < Z.of_nat fuel - 1).
  { Z.div_mod_to_equations. lia. }
  assert (0 <= (s - 5) / 6) by (apply Z.div_pos; lia).
  lia.
Qed.

Lemma is_prime_true_needs_sqrt_passes_witness :
  (Z.to_nat ((Z.sqrt 10007 - 5) / 6) + 2 <= 20)%nat.
Proof.
  apply (is_prime_true_needs_sqrt_passes 20 10007).
  - lia.
  - reflexivity.
Defined.

(** ** cpu_stress: one pass of [while (true)] *)

Lemma iterate_add {St : Type} (step : St -> outcome St) a b s s' :
  iterate step a s = Done s' ->
  iterate step (a + b) s = iterate step b s'.
Proof.
  revert s. induction a as [|a IH]; intros s; cbn [iterate Nat.add].
  - now intros [= ->].
  - destruct (step s) as [s1| |]; try discriminate. apply IH.
Qed.

Lemma cpu_stress_outer_pass :
  iterate cpu_stress_step (S (Z.to_nat 100000000)) cpu_stress_start
  = Done cpu_stress_start.
Proof.
  destruct (cpu_stress_pass (Z.to_nat 100000000)) as [r Hr].
  { rewrite Z2Nat.id; lia. }
  apply (iterate_snoc _ _ _ _ _ Hr).
  rewrite Z2Nat.id by lia. reflexivity.
Qed.

(** X4. One pass of the outer loop of [cpu_stress] is 100000001 passes
    of the inner one, the last of which fails the test [i < 100000000];
    it leaves the worker as it started, with [result] and [i] zero, so
    the passes that follow repeat the first ones. *)
Theorem cpu_stress_starts_afresh (k : nat) :
  iterate cpu_stress_step (S (Z.to_nat 100000000)) cpu_stress_start
  = Done cpu_stress_start
  /\ iterate cpu_stress_step (S (Z.to_nat 100000000) + k) cpu_stress_start
     = iterate cpu_stress_step k cpu_stress_start.
Proof.
  split; [exact cpu_stress_outer_pass|].
  apply iterate_add. exact cpu_stress_outer_pass.
Qed.

(** ** print_cpu_usage: the counters *)

Lemma QuadPart_sum t :
  QuadPart t = dwLowDateTime t mod 2 ^ 32 + 2 ^ 32 * (dwHighDateTime t mod 2 ^ 32).
Proof.
  unfold QuadPart.
  set (h := dwHighDateTime t mod 2 ^ 32).
  set (l := dwLowDateTime t mod 2 ^ 32).
  assert (Hl : 0 <= l < 2 ^ 32) by (apply Z.mod_pos_bound; lia).
  assert (Hh : 0 <= h < 2 ^ 32) by (apply Z.mod_pos_bound; lia).
  assert (Hland : Z.land (Z.shiftl h 32) l = 0).
  { apply Z.bits_inj'. intros n Hn.
    rewrite Z.land_spec, Z.bits_0.
    destruct (Z.lt_ge_cases n 32) as [Hlt|Hge].
    - rewrite Z.shiftl_spec_low by lia. reflexivity.
    - replace (Z.testbit l n) with false; [apply andb_false_r|].
      symmetry. subst l. apply Z.mod_pow2_bits_high. lia. }
  rewrite <- Z.lxor_lor by exact Hland.
  rewrite <- Z.add_nocarry_lxor by exact Hland.
  rewrite Z.shiftl_mul_pow2 by lia. ring.
Qed.

(** X5. [QuadPart] is [HighPart * 2 ^ 32 + LowPart], a number of 64
    bits; every number of 64 bits is the [QuadPart] of its two halves,
    and equal [QuadPart]s have equal halves. *)
Theorem QuadPart_joins_halves :
  (forall t,
      QuadPart t
      = dwLowDateTime t mod 2 ^ 32 + 2 ^ 32 * (dwHighDateTime t mod 2 ^ 32)
      /\ U64.in_range (QuadPart t))
  /\ (forall q, U64.in_range q -> QuadPart (filetime_of q) = q)
  /\ (forall t t',
         QuadPart t = QuadPart t' ->
         dwLowDateTime t mod 2 ^ 32 = dwLowDateTime t' mod 2 ^ 32
         /\ dwHighDateTime t mod 2 ^ 32 = dwHighDateTime t' mod 2 ^ 32).
Proof.
  split; [|split].
  - intros t. split; [apply QuadPart_sum|].
    rewrite QuadPart_sum. unfold U64.in_range. rewrite modulus_value.
    pose proof (Z.mod_pos_bound (dwLowDateTime t) (2 ^ 32) ltac:(lia)).
    pose proof (Z.mod_pos_bound (dwHighDateTime t) (2 ^ 32) ltac:(lia)).
    lia.
  - intros q [Hq0 Hq1]. rewrite modulus_value in Hq1.
    rewrite QuadPart_sum. unfold filetime_of. cbn [dwLowDateTime dwHighDateTime].
    change (2 ^ 32 - 1) with (Z.ones 32).
    rewrite Z.land_ones, Z.shiftr_div_pow2 by lia.
    rewrite Z.mod_mod by lia.
    rewrite (Z.mod_small (q / 2 ^ 32)).
    + pose proof (Z.div_mod q (2 ^ 32) ltac:(lia)). lia.
    + split; [apply Z.div_pos; lia|].
      apply Z.div_lt_upper_bound; lia.
  - intros t t'. rewrite !QuadPart_sum.
    pose proof (Z.mod_pos_bound (dwLowDateTime t) (2 ^ 32) ltac:(lia)).
    pose proof (Z.mod_pos_bound (dwHighDateTime t) (2 ^ 32) ltac:(lia)).
    pose proof (Z.mod_pos_bound (dwLowDateTime t') (2 ^ 32) ltac:(lia)).
    pose proof (Z.mod_pos_bound (dwHighDateTime t') (2 ^ 32) ltac:(lia)).
    lia.
Qed.

Lemma QuadPart_joins_halves_witness :
  QuadPart (filetime_of 12345678901234567890) = 12345678901234567890.
Proof.
  apply (proj1 (proj2 QuadPart_joins_halves)).
  unfold U64.in_range. rewrite modulus_value. lia.
Defined.

Lemma QuadPart_in_range t : U64.in_range (QuadPart t).
Proof.
  rewrite QuadPart_sum. unfold U64.in_range. rewrite modulus_value.
  pose proof (Z.mod_pos_bound (dwLowDateTime t) (2 ^ 32) ltac:(lia)).
  pose proof (Z.mod_pos_bound (dwHighDateTime t) (2 ^ 32) ltac:(lia)).
  lia.
Qed.

Lemma sub_after_advance c d :
  0 <= d < U64.modulus -> U64.sub (U64.wrap (c + d)) (U64.wrap c) = d.
Proof.
  intros Hd. unfold U64.sub, U64.wrap.
  rewrite <- Zminus_mod.
  replace (c + d - c) with d by lia. now apply Z.mod_small.
Qed.

(** X6. The differences are right also when a counter has wrapped
    around between the two snapshots: if idle, kernel and user time have
    advanced by [di], [dk] and [du] modulo [2 ^ 64], then [idleTimeDelta]
    is [di] and [systemTimeDelta] is [dk + du], and the usage is computed
    from these. *)
Theorem deltas_survive_wrap s1 s2 di dk du :
  0 <= di < U64.modulus -> 0 <= dk -> 0 <= du -> dk + du < U64.modulus ->
  QuadPart (idleTime s2) = U64.add (QuadPart (idleTime s1)) di ->
  QuadPart (kernelTime s2) = U64.add (QuadPart (kernelTime s1)) dk ->
  QuadPart (userTime s2) = U64.add (QuadPart (userTime s1)) du ->
  idleTimeDelta s1 s2 = di
  /\ systemTimeDelta s1 s2 = dk + du
  /\ cpuUsage s1 s2 = cpuUsage_of_deltas di (dk + du).
Proof.
  intros Hdi Hdk Hdu Hsum Hi Hk Hu.
  assert (E1 : idleTimeDelta s1 s2 = di).
  { unfold idleTimeDelta. rewrite Hi. unfold U64.add.
    rewrite <- (wrap_small _ (QuadPart_in_range (idleTime s1))) at 2.
    now apply sub_after_advance. }
  assert (E2 : systemTimeDelta s1 s2 = dk + du).
  { unfold systemTimeDelta, systemTime. rewrite Hk, Hu.
    unfold U64.add, U64.sub, U64.wrap.
    rewrite <- Zplus_mod, <- Zminus_mod.
    replace (QuadPart (kernelTime s1) + dk + (QuadPart (userTime s1) + du)
             - (QuadPart (kernelTime s1) + QuadPart (userTime s1)))
      with (dk + du) by lia.
    apply Z.mod_small. lia. }
  split; [exact E1|]. split; [exact E2|].
  unfold cpuUsage. now rewrite E1, E2.
Qed.

Lemma deltas_survive_wrap_witness :
  idleTimeDelta (snapshot_of (2 ^ 64 - 5) (2 ^ 64 - 3) 7) (snapshot_of 10 4 20)
  = 15
  /\ systemTimeDelta (snapshot_of (2 ^ 64 - 5) (2 ^ 64 - 3) 7)
                     (snapshot_of 10 4 20) = 7 + 13
  /\ cpuUsage (snapshot_of (2 ^ 64 - 5) (2 ^ 64 - 3) 7) (snapshot_of 10 4 20)
     = cpuUsage_of_deltas 15 (7 + 13).
Proof.
  apply deltas_survive_wrap;
    try (rewrite modulus_value; lia); try lia; reflexivity.
Defined.

(** ** print_cpu_usage: the result is a percentage

    Rounding keeps the order of the numbers it rounds: with no more idle
    time than system time, the quotient is at most one, its product with
    100.0 at most 100.0 and the difference from 100.0 not below zero. *)

(** [binary_round_aux] again, with the mantissa [M] before it is brought
    back under [2 ^ 53]: [M] is [N / D] in units of the last place,
    rounded to an integer. *)
Lemma binary_round_aux_value sx mx ex lx N D :
  0 < D -> 0 < mx ->
  brackets N D (shr_record_of_loc mx lx) ->
  53 <= Zdigits2 mx ->
  -1074 <= Zdigits2 mx + ex - 53 ->
  Zdigits2 mx + ex <= 1023 ->
  exists m e M,
    binary_round_aux 53 1024 sx mx ex lx = S754_finite sx m e
    /\ 2 ^ 52 <= Zpos m < 2 ^ 53
    /\ (e = ex + (Zdigits2 mx - 53) /\ M = Zpos m
        \/ e = ex + (Zdigits2 mx - 53) + 1 /\ M = 2 ^ 53 /\ Zpos m = 2 ^ 52)
    /\ Z.abs (2 * M * (D * 2 ^ (Zdigits2 mx - 53)) - 2 * N)
       <= D * 2 ^ (Zdigits2 mx - 53).
Proof.
  intros HD Hmx Hb Hd He Hmax.
  destruct (shr_fexp_brackets N D mx ex lx HD Hmx Hb Hd He)
    as (mrs & Hshr & Hb1 & Hm1).
  unfold binary_round_aux. rewrite Hshr.
  set (k := Zdigits2 mx - 53) in *.
  assert (Hk : 0 <= k) by (subst k; lia).
  assert (HP : 0 < 2 ^ k) by (apply Z.pow_pos_nonneg; lia).
  destruct (round_nearest_even_brackets N (D * 2 ^ k) mrs ltac:(nia) Hb1)
    as [Hr1 Hr2].
  set (m1 := round_nearest_even (shr_m mrs) (loc_of_shr_record mrs)) in *.
  change (2 ^ 52) with 4503599627370496 in *.
  change (2 ^ 53) with 9007199254740992 in *.
  destruct (Z.eq_dec m1 9007199254740992) as [Hc|Hc].
  - rewrite Hc in *. unfold shr_fexp.
    change (Zdigits2 9007199254740992) with 54.
    rewrite fexp_normal by lia.
    replace (54 + (ex + k) - 53 - (ex + k)) with 1 by lia.
    cbn [shr shr_record_of_loc iter_pos shr_1 shr_m].
    destruct (Z.leb_spec (ex + k + 1) (1024 - 53)); [|lia].
    exists 4503599627370496%positive, (ex + k + 1), 9007199254740992.
    split; [reflexivity|]. split; [lia|]. split; [right; lia|exact Hr2].
  - assert (Hm1' : 4503599627370496 <= m1 < 9007199254740992) by lia.
    unfold shr_fexp.
    rewrite (Zdigits2_unique m1 53) by (change (2 ^ (53 - 1)) with 4503599627370496;
                                         change (2 ^ 53) with 9007199254740992; lia).
    rewrite fexp_normal by lia.
    replace (53 + (ex + k) - 53 - (ex + k)) with 0 by lia.
    cbn [shr shr_record_of_loc shr_m].
    destruct m1 as [|m|m] eqn:Em; try lia.
    destruct (Z.leb_spec (ex + k) (1024 - 53)); [|lia].
    exists m, (ex + k), (Zpos m).
    split; [reflexivity|]. split; [lia|]. split; [left; lia|exact Hr2].
Qed.

(** The same for [binary_round], which first shifts a short mantissa to
    the left. *)
Lemma binary_round_value sx mx ex :
  let d := Zpos (digits2_pos mx) in
  -1074 <= d + ex - 53 -> d + ex <= 1023 ->
  exists m e M,
    binary_round 53 1024 sx mx ex = S754_finite sx m e
    /\ 2 ^ 52 <= Zpos m < 2 ^ 53
    /\ (e = d + ex - 53 /\ M = Zpos m
        \/ e = d + ex - 52 /\ M = 2 ^ 53 /\ Zpos m = 2 ^ 52)
    /\ (d <= 53 -> M = Zpos mx * 2 ^ (53 - d))
    /\ (53 <= d -> Z.abs (2 * M * 2 ^ (d - 53) - 2 * Zpos mx) <= 2 ^ (d - 53)).
Proof.
  intros d Hlo Hhi. unfold binary_round.
  change (Zpos (digits2_pos mx)) with d.
  rewrite fexp_normal by lia. unfold shl_align.
  pose proof (digits2_pos_bounds mx) as Hdig. fold d in Hdig.
  assert (Hd0 : 0 < d) by (unfold d; lia).
  assert (Ed : Zdigits2 (Zpos mx) = d) by reflexivity.
  clearbody d.
  destruct (d + ex - 53 - ex) as [|q|q] eqn:Eq.
  - destruct (binary_round_aux_value sx (Zpos mx) ex loc_Exact (Zpos mx) 1)
      as (m & e & M & Hr & Hm & He & Habs); try (rewrite Ed; lia); try lia.
    { unfold brackets. cbn. lia. }
    rewrite Ed in He, Habs.
    exists m, e, M. split; [exact Hr|]. split; [exact Hm|].
    split; [lia|].
    replace (d - 53) with 0 in * by lia. replace (53 - d) with 0 by lia.
    change (2 ^ 0) with 1 in *. split; intros _; lia.
  - destruct (binary_round_aux_value sx (Zpos mx) ex loc_Exact (Zpos mx) 1)
      as (m & e & M & Hr & Hm & He & Habs); try (rewrite Ed; lia); try lia.
    { unfold brackets. cbn. lia. }
    rewrite Ed in He, Habs.
    exists m, e, M. split; [exact Hr|]. split; [exact Hm|].
    split; [lia|]. split; [lia|]. intros _.
    rewrite Z.mul_1_l in Habs. exact Habs.
  - assert (Hq : Zpos q = 53 - d) by lia.
    pose proof (iter_xO_pow mx q) as Hshift.
    set (mz := Pos.iter xO mx q) in *. clearbody mz.
    assert (HP : 0 < 2 ^ Zpos q) by (apply Z.pow_pos_nonneg; lia).
    assert (Hdz : Zdigits2 (Zpos mz) = 53).
    { apply Zdigits2_unique; [lia|]. rewrite Hshift.
      replace 53 with (d + Zpos q) at 2 by lia.
      replace (53 - 1) with (d - 1 + Zpos q) by lia.
      rewrite (Z.pow_add_r 2 (d - 1) (Zpos q)) by lia.
      rewrite (Z.pow_add_r 2 d (Zpos q)) by lia.
      revert Hdig HP. generalize (2 ^ (d - 1)) (2 ^ d) (2 ^ Zpos q). nia. }
    destruct (binary_round_aux_value sx (Zpos mz) (d + ex - 53) loc_Exact
                                     (Zpos mz) 1)
      as (m & e & M & Hr & Hm & He & Habs); try (rewrite Hdz; lia); try lia.
    { unfold brackets. cbn. lia. }
    rewrite Hdz in He, Habs. change (53 - 53) with 0 in *.
    change (2 ^ 0) with 1 in Habs.
    exists m, e, M. split; [exact Hr|]. split; [exact Hm|].
    split; [lia|]. split; [|lia]. intros _.
    rewrite <- Hq, <- Hshift. lia.
Qed.

Lemma digits2_pos_le p q :
  (p <= q)%positive -> Zpos (digits2_pos p) <= Zpos (digits2_pos q).
Proof.
  intros H.
  pose proof (digits2_pos_bounds p) as [Hp _].
  pose proof (digits2_pos_bounds q) as [_ Hq].
  destruct (Z.le_gt_cases (Zpos (digits2_pos p)) (Zpos (digits2_pos q)))
    as [Hle|Hgt]; [exact Hle|exfalso].
  assert (2 ^ Zpos (digits2_pos q) <= 2 ^ (Zpos (digits2_pos p) - 1))
    by (apply Z.pow_le_mono_r; lia).
  lia.
Qed.

(** The conversion of integers keeps their order. *)
Lemma of_Z_monotone a b :
  0 < a < b -> b < U64.modulus ->
  exists ma ea mb eb,
    Binary64.of_Z a = S754_finite false ma ea
    /\ Binary64.of_Z b = S754_finite false mb eb
    /\ 2 ^ 52 <= Zpos ma < 2 ^ 53 /\ 2 ^ 52 <= Zpos mb < 2 ^ 53
    /\ -52 <= ea <= 12 /\ -52 <= eb <= 12
    /\ (ea < eb \/ ea = eb /\ Zpos ma <= Zpos mb).
Proof.
  intros [Ha Hab] Hb.
  destruct a as [|p|p]; try lia. destruct b as [|q|q]; try lia.
  unfold Binary64.of_Z, binary_normalize, Binary64.prec, Binary64.emax.
  destruct (Zdigits2_range (Zpos p) 0 64 ltac:(lia)) as [Hp0 Hp1].
  { change (2 ^ 0) with 1. change (2 ^ 64) with U64.modulus. lia. }
  destruct (Zdigits2_range (Zpos q) 0 64 ltac:(lia)) as [Hq0 Hq1].
  { change (2 ^ 0) with 1. change (2 ^ 64) with U64.modulus. lia. }
  cbn [Zdigits2] in Hp0, Hp1, Hq0, Hq1.
  pose proof (digits2_pos_le p q ltac:(lia)) as Hdle.
  destruct (binary_round_value false p 0)
    as (ma & ea & Ma & Hra & Hma & Hea & Hsa & Hla); try lia.
  destruct (binary_round_value false q 0)
    as (mb & eb & Mb & Hrb & Hmb & Heb & Hsb & Hlb); try lia.
  exists ma, ea, mb, eb.
  split; [exact Hra|]. split; [exact Hrb|].
  split; [exact Hma|]. split; [exact Hmb|].
  split; [lia|]. split; [lia|].
  change (2 ^ 52) with 4503599627370496 in *.
  change (2 ^ 53) with 9007199254740992 in *.
  set (dp := Zpos (digits2_pos p)) in *.
  set (dq := Zpos (digits2_pos q)) in *.
  clearbody dp dq.
  destruct (Z.eq_dec dp dq) as [Ed|Hne]; [|lia].
  subst dq.
  assert (HM : Ma <= Mb).
  { destruct (Z.le_gt_cases dp 53) as [Hs|Hl].
    - rewrite (Hsa Hs), (Hsb Hs).
      apply Z.mul_le_mono_nonneg_r; [apply Z.pow_nonneg|]; lia.
    - specialize (Hla ltac:(lia)). specialize (Hlb ltac:(lia)).
      assert (HP : 0 < 2 ^ (dp - 53)) by (apply Z.pow_pos_nonneg; lia).
      revert Hla Hlb HP. generalize (2 ^ (dp - 53)). intros P Hla Hlb HP.
      nia. }
  lia.
Qed.

(** A quotient of two doubles in order is at most one. *)
Lemma div_le_one ma ea mb eb :
  2 ^ 52 <= Zpos ma < 2 ^ 53 -> 2 ^ 52 <= Zpos mb < 2 ^ 53 ->
  -1021 <= ea - eb <= 1021 ->
  ea < eb \/ ea = eb /\ Zpos ma <= Zpos mb ->
  exists m e,
    Binary64.div (S754_finite false ma ea) (S754_finite false mb eb)
    = S754_finite false m e
    /\ 2 ^ 52 <= Zpos m < 2 ^ 53
    /\ ea - eb - 53 <= e
    /\ (e <= -53 \/ e = -52 /\ Zpos m = 2 ^ 52).
Proof.
  intros Hma Hmb He Hle.
  destruct (Z.eq_dec ea eb) as [Ee|Hne].
  - subst eb. destruct (Pos.eq_dec ma mb) as [Em|Hnm].
    + subst mb. rewrite div_self. exists 4503599627370496%positive, (-52).
      split; [reflexivity|]. split; [split; [reflexivity|reflexivity]|].
      split; [lia|]. right. split; reflexivity.
    + assert (Hlt : Zpos ma < Zpos mb).
      { destruct Hle as [H|[_ H]]; [lia|].
        assert (Zpos ma <> Zpos mb) by (intros E; apply Hnm; now injection E).
        lia. }
      unfold Binary64.div, SFdiv, SFdiv_core_binary.
      rewrite (Zdigits2_unique (Zpos ma) 53), (Zdigits2_unique (Zpos mb) 53)
        by (try lia; exact Hma || exact Hmb).
      unfold Binary64.prec, Binary64.emax.
      rewrite fexp_normal by lia.
      replace (Z.min (53 + ea - (53 + ea) - 53) (ea - ea)) with (ea - ea - 53) by lia.
      replace (ea - ea - (ea - ea - 53)) with 53 by lia.
      cbv iota beta.
      pose proof (Z_div_mod (Z.shiftl (Zpos ma) 53) (Zpos mb) ltac:(lia)) as Hdm.
      destruct (Z.div_eucl (Z.shiftl (Zpos ma) 53) (Zpos mb)) as [q r].
      destruct Hdm as [Hq Hr].
      rewrite Z.shiftl_mul_pow2 in Hq by lia.
      change (2 ^ 52) with 4503599627370496 in *.
      change (2 ^ 53) with 9007199254740992 in *.
      assert (Hqr : 4503599627370496 <= q < 9007199254740992) by nia.
      assert (Hdq : Zdigits2 q = 53).
      { apply Zdigits2_unique; [lia|].
        change (2 ^ (53 - 1)) with 4503599627370496.
        change (2 ^ 53) with 9007199254740992. exact Hqr. }
      destruct (binary_round_aux_value (xorb false false) q (ea - ea - 53)
                  (new_location (Zpos mb) r)
                  (Zpos ma * 9007199254740992) (Zpos mb))
        as (m & e & M & Hres & Hm & Hex & _); try lia.
      { apply new_location_brackets; lia. }
      rewrite Hdq in Hex.
      change (2 ^ 52) with 4503599627370496 in *.
      change (2 ^ 53) with 9007199254740992 in *.
      exists m, e. split; [exact Hres|]. split; [exact Hm|]. lia.
  - assert (Hlt : ea < eb) by lia.
    unfold Binary64.div, SFdiv, SFdiv_core_binary.
    rewrite (Zdigits2_unique (Zpos ma) 53), (Zdigits2_unique (Zpos mb) 53)
      by (try lia; exact Hma || exact Hmb).
    unfold Binary64.prec, Binary64.emax.
    rewrite fexp_normal by lia.
    replace (Z.min (53 + ea - (53 + eb) - 53) (ea - eb)) with (ea - eb - 53) by lia.
    replace (ea - eb - (ea - eb - 53)) with 53 by lia.
    cbv iota beta.
    pose proof (Z_div_mod (Z.shiftl (Zpos ma) 53) (Zpos mb) ltac:(lia)) as Hdm.
    destruct (Z.div_eucl (Z.shiftl (Zpos ma) 53) (Zpos mb)) as [q r].
    destruct Hdm as [Hq Hr].
    rewrite Z.shiftl_mul_pow2 in Hq by lia.
    change (2 ^ 52) with 4503599627370496 in *.
    change (2 ^ 53) with 9007199254740992 in *.
    assert (Hqr : 4503599627370496 <= q < 18014398509481984) by nia.
    destruct (Zdigits2_range q 52 54 ltac:(lia)) as [Hd0 Hd1].
    { change (2 ^ 52) with 4503599627370496.
      change (2 ^ 54) with 18014398509481984. exact Hqr. }
    destruct (binary_round_aux_value (xorb false false) q (ea - eb - 53)
                (new_location (Zpos mb) r)
                (Zpos ma * 9007199254740992) (Zpos mb))
      as (m & e & M & Hres & Hm & Hex & _); try lia.
    { apply new_location_brackets; lia. }
    change (2 ^ 52) with 4503599627370496 in *.
    change (2 ^ 53) with 9007199254740992 in *.
    exists m, e. split; [exact Hres|]. split; [exact Hm|]. lia.
Qed.

(** A double that is at most one, times 100.0, is at most 100.0. *)
Lemma mul_hundred_le mq eq :
  2 ^ 52 <= Zpos mq < 2 ^ 53 -> -1000 <= eq ->
  eq <= -53 \/ eq = -52 /\ Zpos mq = 2 ^ 52 ->
  exists m e,
    Binary64.mul (S754_finite false mq eq) hundred = S754_finite false m e
    /\ 2 ^ 52 <= Zpos m < 2 ^ 53
    /\ eq + 6 <= e
    /\ (e < -46 \/ e = -46 /\ Zpos m <= 7036874417766400).
Proof.
  intros Hmq Hlo Hle.
  change (2 ^ 52) with 4503599627370496 in *.
  change (2 ^ 53) with 9007199254740992 in *.
  destruct (Z.eq_dec eq (-52)) as [Ee|Hne].
  - assert (Em : mq = 4503599627370496%positive) by lia. subst mq eq.
    exists 7036874417766400%positive, (-46).
    split; [reflexivity|]. split; [lia|]. split; [lia|]. right. lia.
  - assert (He : eq <= -53) by lia.
    unfold hundred, Binary64.mul, SFmul, Binary64.prec, Binary64.emax.
    assert (Hp : 2 ^ 104 <= Zpos (mq * 7036874417766400) < 2 ^ 106).
    { rewrite Pos2Z.inj_mul.
      change (2 ^ 104) with (4503599627370496 * 4503599627370496).
      change (2 ^ 106) with (9007199254740992 * 9007199254740992). nia. }
    destruct (Zdigits2_range _ 104 106 ltac:(lia) Hp) as [Hd0 Hd1].
    destruct (binary_round_aux_value (xorb false false)
                (Zpos (mq * 7036874417766400)) (eq + -46) loc_Exact
                (Zpos (mq * 7036874417766400)) 1)
      as (m & e & M & Hres & Hm & Hex & Habs); try lia.
    { unfold brackets. cbn [shr_record_of_loc shr_m shr_r shr_s]. lia. }
    change (2 ^ 52) with 4503599627370496 in *.
    change (2 ^ 53) with 9007199254740992 in *.
    exists m, e. split; [exact Hres|]. split; [exact Hm|]. split; [lia|].
    set (d := Zdigits2 (Zpos (mq * 7036874417766400))) in *. clearbody d.
    destruct (Z.eq_dec d 106) as [Ed|Hd]; [|lia].
    destruct (Z.eq_dec eq (-53)) as [E53|H53]; [|lia].
    subst d eq. change (106 - 53) with 53 in *.
    change (2 ^ 53) with 9007199254740992 in *.
    rewrite Pos2Z.inj_mul in Habs. nia.
Qed.

(** 100.0 minus a double that is at most 100.0 is between 0.0 and
    100.0. *)
Lemma hundred_sub_le mp ep :
  2 ^ 52 <= Zpos mp < 2 ^ 53 -> -1000 <= ep ->
  ep < -46 \/ ep = -46 /\ Zpos mp <= 7036874417766400 ->
  Binary64.sub hundred (S754_finite false mp ep) = S754_zero false
  \/ exists m e,
      Binary64.sub hundred (S754_finite false mp ep) = S754_finite false m e
      /\ 2 ^ 52 <= Zpos m < 2 ^ 53
      /\ (e < -46 \/ e = -46 /\ Zpos m <= 7036874417766400).
Proof.
  intros Hmp Hlo Hle.
  unfold hundred, Binary64.sub, SFsub, Binary64.prec, Binary64.emax, cond_Zopp.
  replace (Z.min (-46) ep) with ep by lia.
  rewrite !shl_align_fst by lia.
  replace (ep - ep) with 0 by lia. change (2 ^ 0) with 1. rewrite Z.mul_1_r.
  set (k := -46 - ep) in *.
  assert (Hk : 0 <= k) by (subst k; lia).
  assert (HP : 0 < 2 ^ k) by (apply Z.pow_pos_nonneg; lia).
  change (2 ^ 52) with 4503599627370496 in *.
  change (2 ^ 53) with 9007199254740992 in *.
  assert (HP1 : k = 0 -> 2 ^ k = 1) by (intros ->; reflexivity).
  assert (HP2 : 0 < k -> 2 <= 2 ^ k).
  { intros H. change 2 with (2 ^ 1) at 1. apply Z.pow_le_mono_r; lia. }
  assert (Hz : 0 <= 7036874417766400 * 2 ^ k - Zpos mp
               < 7036874417766400 * 2 ^ k).
  { destruct (Z.eq_dec k 0) as [E|E].
    - rewrite (HP1 E). lia.
    - specialize (HP2 ltac:(lia)). nia. }
  destruct (7036874417766400 * 2 ^ k - Zpos mp) as [|z|z] eqn:Ez;
    [left; reflexivity| |lia].
  right. cbn [binary_normalize].
  assert (Hzlt : Zpos z < 2 ^ (53 + k)).
  { rewrite Z.pow_add_r by lia. change (2 ^ 53) with 9007199254740992. nia. }
  destruct (Zdigits2_range (Zpos z) 0 (53 + k) ltac:(lia)) as [Hd0 Hd1].
  { change (2 ^ 0) with 1. lia. }
  cbn [Zdigits2] in Hd0, Hd1.
  destruct (binary_round_value false z ep)
    as (m & e & M & Hr & Hm & He & Hs & Hl); try lia.
  change (2 ^ 52) with 4503599627370496 in *.
  change (2 ^ 53) with 9007199254740992 in *.
  exists m, e. split; [exact Hr|]. split; [exact Hm|].
  set (d := Zpos (digits2_pos z)) in *. clearbody d.
  destruct (Z.eq_dec d (53 + k)) as [Ed|Hd]; [|lia].
  assert (HM : M <= 7036874417766400).
  { destruct (Z.eq_dec k 0) as [E0|E0].
    - rewrite (Hs ltac:(lia)).
      replace (53 - d) with 0 by lia. change (2 ^ 0) with 1.
      rewrite (HP1 E0) in Hz. lia.
    - specialize (Hl ltac:(lia)).
      replace (d - 53) with k in Hl by lia.
      revert Hl Hz HP. generalize (2 ^ k). intros P Hl Hz HP. nia. }
  lia.
Qed.

Lemma to_Q_le_hundred m e :
  2 ^ 52 <= Zpos m < 2 ^ 53 ->
  e < -46 \/ e = -46 /\ Zpos m <= 7036874417766400 ->
  (0 <= Binary64.to_Q (S754_finite false m e) <= 100)%Q.
Proof.
  intros Hm Hle. unfold Binary64.to_Q. cbv zeta.
  pose proof (pow2_pos e) as Hu.
  assert (Hm0 : (0 <= inject_Z (Zpos m))%Q) by discriminate.
  split; [apply Qmult_le_0_compat; [exact Hm0|apply Qlt_le_weak, Hu]|].
  destruct (Z.eq_dec e (-46)) as [->|Hne].
  - destruct Hle as [H|[_ H]]; [lia|].
    rewrite Zle_Qle in H.
    change (Qpower 2 (-46)) with (1 # 70368744177664)%Q.
    revert H. generalize (inject_Z (Zpos m)). intros x H.
    change (inject_Z 7036874417766400) with (7036874417766400 # 1)%Q in H.
    lra.
  - assert (He : e <= -47) by lia.
    pose proof (pow2_split (-47) e He) as Hsp.
    assert (HP : 1 <= 2 ^ (-47 - e)).
    { change 1 with (2 ^ 0). apply Z.pow_le_mono_r; lia. }
    rewrite Zle_Qle in HP.
    change (Qpower 2 (-47)) with (1 # 140737488355328)%Q in Hsp.
    assert (Hu' : (Qpower 2 e <= 1 # 140737488355328)%Q).
    { rewrite Hsp.
      rewrite <- (Qmult_1_l (Qpower 2 e)) at 1.
      apply Qmult_le_compat_r; [exact HP|apply Qlt_le_weak, Hu]. }
    assert (Hmq : (inject_Z (Zpos m) <= 9007199254740992)%Q).
    { change 9007199254740992%Q with (inject_Z (2 ^ 53)).
      rewrite <- Zle_Qle. lia. }
    apply Qle_trans with (9007199254740992 * Qpower 2 e)%Q.
    + apply Qmult_le_compat_r; [exact Hmq|apply Qlt_le_weak, Hu].
    + revert Hu'. generalize (Qpower 2 e). intros u Hu'. lra.
Qed.

Lemma compare_cont_Eq p q : Pos.compare_cont Eq p q = (Zpos p ?= Zpos q).
Proof. reflexivity. Qed.

Lemma SFleb_hundred m e :
  e < -46 \/ e = -46 /\ Zpos m <= 7036874417766400 ->
  SFleb (S754_finite false m e) hundred = true.
Proof.
  intros Hr.
  unfold hundred, SFleb, SFcompare.
  destruct Hr as [Hr|[-> Hr]].
  - apply Z.compare_lt_iff in Hr. rewrite Hr. reflexivity.
  - rewrite Z.compare_refl, compare_cont_Eq.
    destruct (Z.compare_spec (Zpos m) 7036874417766400); try reflexivity.
    lia.
Qed.

Lemma percentage_hundred :
  Binary64.is_finite hundred = true
  /\ (0 <= Binary64.to_Q hundred <= 100)%Q
  /\ SFleb (S754_zero false) hundred = true
  /\ SFleb hundred hundred = true.
Proof. repeat split; vm_compute; congruence. Qed.

Lemma percentage_zero :
  Binary64.is_finite (S754_zero false) = true
  /\ (0 <= Binary64.to_Q (S754_zero false) <= 100)%Q
  /\ SFleb (S754_zero false) (S754_zero false) = true
  /\ SFleb (S754_zero false) hundred = true.
Proof. repeat split; vm_compute; congruence. Qed.

Lemma cpuUsage_of_deltas_percentage idle sys :
  0 <= idle <= sys -> 0 < sys < U64.modulus ->
  Binary64.is_finite (cpuUsage_of_deltas idle sys) = true
  /\ (0 <= Binary64.to_Q (cpuUsage_of_deltas idle sys) <= 100)%Q
  /\ SFleb (S754_zero false) (cpuUsage_of_deltas idle sys) = true
  /\ SFleb (cpuUsage_of_deltas idle sys) hundred = true.
Proof.
  intros Hi Hs.
  destruct (Z.eq_dec idle 0) as [->|Hi0].
  { rewrite cpuUsage_idle_zero by lia. exact percentage_hundred. }
  destruct (Z.eq_dec idle sys) as [->|His].
  { rewrite cpuUsage_idle_all by lia. exact percentage_zero. }
  destruct (of_Z_monotone idle sys ltac:(lia) ltac:(lia))
    as (ma & ea & mb & eb & Ea & Eb & Hma & Hmb & Hea & Heb & Hab).
  destruct (div_le_one ma ea mb eb Hma Hmb ltac:(lia) Hab)
    as (mq & eq & Edq & Hmq & Heq & Hq).
  destruct (mul_hundred_le mq eq Hmq ltac:(lia) Hq)
    as (mp & ep & Ep & Hmp & Hep & Hp).
  unfold cpuUsage_of_deltas.
  rewrite Ea, Eb, of_Z_100, Edq, Ep.
  destruct (hundred_sub_le mp ep Hmp ltac:(lia) Hp)
    as [Er|(m & e & Er & Hm & Hr)]; rewrite Er.
  - exact percentage_zero.
  - split; [reflexivity|]. split; [now apply to_Q_le_hundred|].
    split; [reflexivity|]. now apply SFleb_hundred.
Qed.

(** X7. When the idle time has advanced by no more than the system
    time, and the system time has advanced, [cpuUsage] is a finite
    [double] between 0.0 and 100.0, both included: no rounding of the
    division, the product or the difference takes it out of the range. *)
Theorem cpu_usage_is_a_percentage s1 s2 :
  systemTimeDelta s1 s2 <> 0 ->
  idleTimeDelta s1 s2 <= systemTimeDelta s1 s2 ->
  Binary64.is_finite (cpuUsage s1 s2) = true
  /\ (0 <= Binary64.to_Q (cpuUsage s1 s2) <= 100)%Q
  /\ SFleb (Binary64.of_Z 0) (cpuUsage s1 s2) = true
  /\ SFleb (cpuUsage s1 s2) (Binary64.of_Z 100) = true.
Proof.
  intros Hne Hle. rewrite of_Z_0, of_Z_100. unfold cpuUsage.
  pose proof (wrap_in_range (systemTime s2 - systemTime s1)) as Hs.
  pose proof (wrap_in_range (QuadPart (idleTime s2) - QuadPart (idleTime s1)))
    as Hi.
  unfold U64.in_range in Hs, Hi.
  unfold systemTimeDelta, idleTimeDelta, U64.sub in *.
  apply cpuUsage_of_deltas_percentage; lia.
Qed.

Lemma cpu_usage_is_a_percentage_witness :
  Binary64.is_finite (cpuUsage (snapshot_of 0 0 0)
                               (snapshot_of 10000000 10000000 20000000)) = true
  /\ (0 <= Binary64.to_Q (cpuUsage (snapshot_of 0 0 0)
                                   (snapshot_of 10000000 10000000 20000000))
      <= 100)%Q
  /\ SFleb (Binary64.of_Z 0)
           (cpuUsage (snapshot_of 0 0 0)
                     (snapshot_of 10000000 10000000 20000000)) = true
  /\ SFleb (cpuUsage (snapshot_of 0 0 0)
                     (snapshot_of 10000000 10000000 20000000))
           (Binary64.of_Z 100) = true.
Proof.
  apply cpu_usage_is_a_percentage.
  - vm_compute. discriminate.
  - vm_compute. discriminate.
Defined.

(** ** cpu_stress: the sum

    The same mantissas bound the sum of the square roots. *)

Lemma bounded_mono x B B' : B <= B' -> bounded x B -> bounded x B'.
Proof.
  intros HB [Hz|(m & e & Hx & Hm & He & Hle)]; [now left|right].
  exists m, e. repeat split; try tauto; try lia.
  assert (0 < 2 ^ (- e)) by (apply Z.pow_pos_nonneg; lia). nia.
Qed.

(** A sum of at least [2 ^ 52] units that is at most [B], rounded. *)
Lemma binary_round_bounded z ez B :
  0 < B < 2 ^ 53 -> -52 <= ez <= 0 ->
  2 ^ 52 <= Zpos z -> Zpos z <= B * 2 ^ (- ez) ->
  bounded (binary_round 53 1024 false z ez) B.
Proof.
  intros HB Hez Hlo Hhi.
  change (2 ^ 52) with 4503599627370496 in *.
  change (2 ^ 53) with 9007199254740992 in *.
  assert (HP : 0 < 2 ^ (- ez)) by (apply Z.pow_pos_nonneg; lia).
  assert (Hzlt : Zpos z < 2 ^ (53 - ez)).
  { replace (53 - ez) with (53 + - ez) by lia.
    rewrite Z.pow_add_r by lia. change (2 ^ 53) with 9007199254740992. nia. }
  destruct (Zdigits2_range (Zpos z) 52 (53 - ez) ltac:(lia)) as [Hd0 Hd1].
  { change (2 ^ 52) with 4503599627370496. lia. }
  cbn [Zdigits2] in Hd0, Hd1.
  destruct (binary_round_value false z ez)
    as (m & e & M & Hr & Hm & He & _ & Hl); try lia.
  change (2 ^ 52) with 4503599627370496 in *.
  change (2 ^ 53) with 9007199254740992 in *.
  set (d := Zpos (digits2_pos z)) in *. clearbody d.
  specialize (Hl ltac:(lia)).
  set (k := d - 53) in *.
  assert (Hk : 0 <= k <= - ez) by (subst k; lia).
  assert (Esplit : 2 ^ (- ez) = 2 ^ (- ez - k) * 2 ^ k).
  { rewrite <- Z.pow_add_r by lia. f_equal. lia. }
  assert (HPk : 0 < 2 ^ k) by (apply Z.pow_pos_nonneg; lia).
  assert (HPy : 0 < 2 ^ (- ez - k)) by (apply Z.pow_pos_nonneg; lia).
  assert (HM : M <= B * 2 ^ (- ez - k)).
  { rewrite Esplit in Hhi. revert Hl Hhi HPk HPy.
    generalize (2 ^ k) (2 ^ (- ez - k)). intros P Y Hl Hhi HPk HPy. nia. }
  right. exists m, e. split; [exact Hr|]. split; [exact Hm|].
  destruct He as [[He EM]|(He & EM & Em)].
  - subst e. replace (- (d + ez - 53)) with (- ez - k) by (subst k; lia).
    split; [subst k; lia|lia].
  - assert (Hk' : k < - ez).
    { destruct (Z.eq_dec k (- ez)) as [E|E]; [|lia].
      rewrite E in HM. replace (- ez - - ez) with 0 in HM by lia.
      change (2 ^ 0) with 1 in HM. lia. }
    subst e. split; [subst k; lia|].
    replace (- (d + ez - 52)) with (- ez - k - 1) by (subst k; lia).
    assert (E2 : 2 ^ (- ez - k) = 2 * 2 ^ (- ez - k - 1)).
    { rewrite <- Z.pow_succ_r by lia. f_equal. lia. }
    rewrite E2 in HM. lia.
Qed.

(** [+=] on two such doubles. *)
Lemma add_bounded x y Bx By :
  0 <= Bx -> 0 <= By -> Bx + By < 2 ^ 53 ->
  bounded x Bx -> bounded y By ->
  bounded (Binary64.add x y) (Bx + By).
Proof.
  intros HBx HBy HB [->|(mx & ex & -> & Hmx & Hex & Hlx)]
                    [->|(my & ey & -> & Hmy & Hey & Hly)].
  - left. reflexivity.
  - apply bounded_mono with By; [lia|].
    right. exists my, ey. tauto.
  - apply bounded_mono with Bx; [lia|].
    right. exists mx, ex. tauto.
  - unfold Binary64.add, SFadd, Binary64.prec, Binary64.emax, cond_Zopp.
    set (ez := Z.min ex ey).
    assert (Hez : ez <= ex /\ ez <= ey /\ -52 <= ez <= 0) by (subst ez; lia).
    clearbody ez.
    rewrite !shl_align_fst by lia.
    assert (Hpa : 0 < 2 ^ (ex - ez)) by (apply Z.pow_pos_nonneg; lia).
    assert (Hpb : 0 < 2 ^ (ey - ez)) by (apply Z.pow_pos_nonneg; lia).
    assert (Ea : 2 ^ (- ez) = 2 ^ (- ex) * 2 ^ (ex - ez)).
    { rewrite <- Z.pow_add_r by lia. f_equal. lia. }
    assert (Eb : 2 ^ (- ez) = 2 ^ (- ey) * 2 ^ (ey - ez)).
    { rewrite <- Z.pow_add_r by lia. f_equal. lia. }
    assert (Hpx : 0 < 2 ^ (- ex)) by (apply Z.pow_pos_nonneg; lia).
    assert (Hpy : 0 < 2 ^ (- ey)) by (apply Z.pow_pos_nonneg; lia).
    change (2 ^ 52) with 4503599627370496 in *.
    change (2 ^ 53) with 9007199254740992 in *.
    assert (Hsum : 4503599627370496
                   <= Zpos mx * 2 ^ (ex - ez) + Zpos my * 2 ^ (ey - ez)
                   <= (Bx + By) * 2 ^ (- ez)).
    { split; [nia|].
      rewrite Z.mul_add_distr_r. rewrite Ea at 1. rewrite Eb.
      revert Hlx Hly Hpa Hpb Hpx Hpy.
      generalize (2 ^ (ex - ez)) (2 ^ (ey - ez)) (2 ^ (- ex)) (2 ^ (- ey)).
      intros. nia. }
    destruct (Zpos mx * 2 ^ (ex - ez) + Zpos my * 2 ^ (ey - ez))
      as [|z|z] eqn:Ez; try lia.
    cbn [binary_normalize].
    apply binary_round_bounded; try lia.
    change (2 ^ 53) with 9007199254740992.
    assert (0 < Bx + By); [|lia].
    assert (0 < 2 ^ (- ez)) by (apply Z.pow_pos_nonneg; lia). nia.
Qed.

(** The conversion of a positive integer of at most 27 bits. *)
Lemma of_Z_small z :
  0 < z < 2 ^ 27 ->
  exists m e,
    Binary64.of_Z z = S754_finite false m e
    /\ 2 ^ 52 <= Zpos m < 2 ^ 53 /\ -52 <= e <= -26.
Proof.
  intros [Hz0 Hz1]. destruct z as [|p|p]; try lia.
  unfold Binary64.of_Z, binary_normalize, Binary64.prec, Binary64.emax.
  destruct (Zdigits2_range (Zpos p) 0 27 ltac:(lia)) as [Hd0 Hd1].
  { change (2 ^ 0) with 1. lia. }
  cbn [Zdigits2] in Hd0, Hd1.
  destruct (binary_round_value false p 0)
    as (m & e & M & Hr & Hm & He & Hs & _); try lia.
  exists m, e. split; [exact Hr|]. split; [exact Hm|].
  specialize (Hs ltac:(lia)).
  pose proof (digits2_pos_bounds p) as [_ Hhi].
  set (d := Zpos (digits2_pos p)) in *. clearbody d.
  assert (HM : M < 2 ^ 53).
  { rewrite Hs. replace 53 with (d + (53 - d)) at 2 by lia.
    rewrite Z.pow_add_r by lia.
    assert (0 < 2 ^ (53 - d)) by (apply Z.pow_pos_nonneg; lia). nia. }
  lia.
Qed.

(** [sqrt] of such a number: a double between 1 and [2 ^ 14]. *)
Lemma sqrt_small m e :
  2 ^ 52 <= Zpos m < 2 ^ 53 -> -52 <= e <= -26 ->
  bounded (Binary64.sqrt (S754_finite false m e)) 16384.
Proof.
  intros Hm He.
  unfold Binary64.sqrt, SFsqrt, SFsqrt_core_binary, Binary64.prec, Binary64.emax.
  rewrite (Zdigits2_unique (Zpos m) 53) by (try lia; exact Hm).
  rewrite !Z.div2_div.
  rewrite fexp_normal by (Z.div_mod_to_equations; lia).
  set (h := e / 2).
  assert (Hh : e = 2 * h \/ e = 2 * h + 1) by (subst h; Z.div_mod_to_equations; lia).
  assert (Eh : (53 + e + 1) / 2 = h + 27) by (subst h; Z.div_mod_to_equations; lia).
  rewrite Eh. clearbody h.
  replace (Z.min (h + 27 - 53) h) with (h - 26) by lia.
  change (2 ^ 52) with 4503599627370496 in *.
  change (2 ^ 53) with 9007199254740992 in *.
  assert (Hs : exists s, e - 2 * (h - 26) = Zpos s
                         /\ (Zpos s = 52 \/ Zpos s = 53)).
  { destruct Hh as [Hh|Hh]; [exists 52%positive|exists 53%positive]; lia. }
  destruct Hs as (s & Es & Hs). rewrite Es.
  rewrite Z.shiftl_mul_pow2 by lia.
  assert (Hm' : 2 ^ 104 <= Zpos m * 2 ^ Zpos s < 2 ^ 106).
  { change (2 ^ 104) with (4503599627370496 * 2 ^ 52).
    change (2 ^ 106) with (9007199254740992 * 2 ^ 53).
    destruct Hs as [-> | ->].
    - change (2 ^ 53) with (2 * 2 ^ 52). generalize (2 ^ 52) (Z.pow_pos_nonneg 2 52 ltac:(lia) ltac:(lia)).
      intros. nia.
    - change (2 ^ 53) with (2 * 2 ^ 52). generalize (2 ^ 52) (Z.pow_pos_nonneg 2 52 ltac:(lia) ltac:(lia)).
      intros. nia. }
  pose proof (Z.sqrtrem_spec (Zpos m * 2 ^ Zpos s) ltac:(lia)) as Hsq.
  destruct (Z.sqrtrem (Zpos m * 2 ^ Zpos s)) as [q r].
  destruct Hsq as [Hq Hr].
  assert (Hqr : 4503599627370496 <= q < 9007199254740992).
  { change (2 ^ 104) with (4503599627370496 * 4503599627370496) in Hm'.
    change (2 ^ 106) with (9007199254740992 * 9007199254740992) in Hm'.
    rewrite Hq in Hm'. clear - Hm' Hr. nia. }
  assert (Hdq : Zdigits2 q = 53).
  { apply Zdigits2_unique; [lia|].
    change (2 ^ (53 - 1)) with 4503599627370496.
    change (2 ^ 53) with 9007199254740992. exact Hqr. }
  set (l := if r =? 0 then loc_Exact
            else loc_Inexact (if r <=? q then Lt else Gt)).
  assert (Hb : exists N D, 0 < D /\ brackets N D (shr_record_of_loc q l)).
  { subst l. destruct (r =? 0).
    - exists q, 1. split; [lia|]. unfold brackets.
      cbn [shr_record_of_loc shr_m shr_r shr_s]. lia.
    - destruct (r <=? q).
      + exists (4 * q + 1), 4. split; [lia|]. unfold brackets.
        cbn [shr_record_of_loc shr_m shr_r shr_s]. lia.
      + exists (4 * q + 3), 4. split; [lia|]. unfold brackets.
        cbn [shr_record_of_loc shr_m shr_r shr_s]. lia. }
  destruct Hb as (N & D & HD & Hb). clearbody l.
  destruct (binary_round_aux_value false q (h - 26) l N D HD ltac:(lia) Hb)
    as (m' & e' & M & Hres & Hm'' & Hex & _); try lia.
  rewrite Hdq in Hex. change (53 - 53) with 0 in Hex.
  change (2 ^ 52) with 4503599627370496 in *.
  change (2 ^ 53) with 9007199254740992 in *.
  right. exists m', e'. split; [exact Hres|]. split; [exact Hm''|].
  split; [lia|].
  destruct (Z.eq_dec e' (-38)) as [E38|H38].
  - rewrite E38. change (16384 * 2 ^ (- -38)) with 4503599627370496. lia.
  - assert (He' : 39 <= - e') by lia.
    assert (2 ^ 39 <= 2 ^ (- e')) by (apply Z.pow_le_mono_r; lia).
    change (2 ^ 39) with 549755813888 in *. lia.
Qed.

(** The state of [cpu_stress] between two passes of its inner loop. *)
Lemma cpu_stress_invariant k :
  exists s, iterate cpu_stress_step k cpu_stress_start = Done s
            /\ 0 <= i s <= 100000000
            /\ bounded (result s) (16384 * i s).
Proof.
  induction k as [|k (s & Hs & Hi & Hb)].
  - exists cpu_stress_start. split; [reflexivity|].
    split; [cbn; lia|]. left. reflexivity.
  - unfold cpu_stress_step in *.
    destruct (Z.ltb_spec (i s) 100000000) as [Hlt|Hge].
    + eexists. split.
      * apply (iterate_snoc _ _ _ _ _ Hs). unfold cpu_stress_step.
        destruct (Z.ltb_spec (i s) 100000000); [reflexivity|lia].
      * cbn [i result]. split; [lia|].
        replace (16384 * (i s + 1)) with (16384 * i s + 16384) by lia.
        apply add_bounded; try lia; [exact Hb|].
        destruct (Z.eq_dec (i s) 0) as [E0|E0].
        -- rewrite E0. left. reflexivity.
        -- destruct (of_Z_small (i s) ltac:(lia)) as (m & e & E & Hm & He).
           rewrite E. apply bounded_mono with 16384; [lia|].
           now apply sqrt_small.
    + exists cpu_stress_start. split.
      * apply (iterate_snoc _ _ _ _ _ Hs). unfold cpu_stress_step.
        destruct (Z.ltb_spec (i s) 100000000); [lia|reflexivity].
      * split; [cbn; lia|]. left. reflexivity.
Qed.

Lemma bounded_to_Q x B :
  0 <= B -> bounded x B ->
  Binary64.is_finite x = true /\ Binary64.is_nan x = false
  /\ (0 <= Binary64.to_Q x <= inject_Z B)%Q.
Proof.
  intros HB [->|(m & e & -> & Hm & He & Hle)].
  - split; [reflexivity|]. split; [reflexivity|].
    cbn [Binary64.to_Q]. split; [apply Qle_refl|].
    change (inject_Z 0 <= inject_Z B)%Q. rewrite <- Zle_Qle. exact HB.
  - split; [reflexivity|]. split; [reflexivity|].
    unfold Binary64.to_Q. cbv zeta.
    pose proof (pow2_pos e) as Hu.
    pose proof (pow2_split 0 e ltac:(lia)) as Hsp.
    replace (0 - e) with (- e) in Hsp by lia.
    change (Qpower 2 0) with 1%Q in Hsp.
    assert (Hm0 : (0 <= inject_Z (Zpos m))%Q) by discriminate.
    split; [apply Qmult_le_0_compat; [exact Hm0|apply Qlt_le_weak, Hu]|].
    rewrite Zle_Qle, inject_Z_mult in Hle.
    apply Qle_trans with (inject_Z B * inject_Z (2 ^ (- e)) * Qpower 2 e)%Q.
    + apply Qmult_le_compat_r; [exact Hle|apply Qlt_le_weak, Hu].
    + rewrite <- Qmult_assoc, <- Hsp, Qmult_1_r. apply Qle_refl.
Qed.

(** X8. Whatever the number of passes, [result] in [cpu_stress] is a
    finite [double], never a NaN and never negative, and at most
    [16384 * i]: every [sqrt(i)] is taken of a number from 0 to
    99999999 and is at most [2 ^ 14], and no sum overflows. *)
Theorem cpu_stress_result_in_range (k : nat) :
  exists s,
    iterate cpu_stress_step k cpu_stress_start = Done s
    /\ 0 <= i s <= 100000000
    /\ Binary64.is_finite (result s) = true
    /\ Binary64.is_nan (result s) = false
    /\ (0 <= Binary64.to_Q (result s) <= 16384 * inject_Z (i s))%Q.
Proof.
  destruct (cpu_stress_invariant k) as (s & Hs & Hi & Hb).
  exists s. split; [exact Hs|]. split; [exact Hi|].
  apply bounded_to_Q in Hb; [|lia].
  rewrite inject_Z_mult in Hb. exact Hb.
Qed.

(** ** main: what a run prints, reads and gives back *)




















